(** * web_widget_ckeditor: the field widget's value heuristics

    A shallow embedding of [static/src/js/field_ckeditor.js]: the emptiness
    test [isSet], the plain-text fallback [_textToHtml], the toolbar lookup
    [_getCKEditorToolbarItems] and the teardown [destroy].

    JavaScript strings are sequences of UTF-16 code units and the regular
    expressions of the file ([\s], [\S], [<br\/?>], ...) work on code units,
    so a string is a list of code units here.  Values are a small tagged
    union, and a call either completes with a value or throws. *)

From Stdlib Require Import String Ascii.
From Stdlib Require Import List NArith ZArith Arith Lia Bool Recdef.
Import ListNotations.

(** ** Strings *)

Abbreviation char := N (only parsing).
Abbreviation jsstring := (list N) (only parsing).

(** A string literal of the source, as code units. *)
Definition lit (s : string) : jsstring :=
  map N_of_ascii (list_ascii_of_string s).
Arguments lit _%_string.

(** A character literal of the source. *)
Definition ch (a : ascii) : char := N_of_ascii a.
Arguments ch _%_char.

Definition char_eqb (a b : char) : bool := N.eqb a b.

Fixpoint str_eqb (a b : jsstring) : bool :=
  match a, b with
  | [], [] => true
  | x :: a', y :: b' => char_eqb x y && str_eqb a' b'
  | _, _ => false
  end.

(** [pat] occurs at the very start of [s]. *)
Fixpoint starts_with (pat s : jsstring) : bool :=
  match pat, s with
  | [], _ => true
  | p :: pat', c :: s' => char_eqb p c && starts_with pat' s'
  | _ :: _, [] => false
  end.

(** [pat] occurs somewhere in [s] ([s.indexOf(pat) !== -1]). *)
Fixpoint occurs (pat s : jsstring) : bool :=
  starts_with pat s ||
  match s with
  | [] => false
  | _ :: s' => occurs pat s'
  end.

(** The class [\s] of ECMAScript: WhiteSpace and LineTerminator code points
    (TAB, LF, VT, FF, CR, SP, NBSP, U+1680, U+2000..U+200A, LS, PS, U+202F,
    U+205F, U+3000, BOM). *)
Definition is_space (c : char) : bool :=
  ((9 <=? c) && (c <=? 13) || (c =? 32) || (c =? 160) || (c =? 5760)
   || (8192 <=? c) && (c <=? 8202) || (c =? 8232) || (c =? 8233)
   || (c =? 8239) || (c =? 8287) || (c =? 12288) || (c =? 65279))%N.

Definition non_space (c : char) : bool := negb (is_space c).

(** A matcher tells how many code units a pattern consumes when it matches
    at the start of the string.  None of the patterns of this file matches
    the empty string, and the scanners below read a match of length 0 as
    no match. *)
Definition matcher := jsstring -> option nat.

(** A literal pattern: the separator of [split("&nbsp;")], or a regular
    expression that is a plain literal such as [/<p><\/p>/]. *)
Definition re_lit (pat : jsstring) : matcher :=
  fun s => if starts_with pat s then Some (length pat) else None.

(** [/\s/] *)
Definition re_space : matcher :=
  fun s => match s with
           | c :: _ => if is_space c then Some 1 else None
           | [] => None
           end.

(** [/<br\/?>/] *)
Definition re_br : matcher :=
  fun s => if starts_with (lit "<br") s then
             match skipn 3 s with
             | c :: rest =>
                 if char_eqb c (ch "/") then
                   match rest with
                   | d :: _ => if char_eqb d (ch ">") then Some 5 else None
                   | [] => None
                   end
                 else if char_eqb c (ch ">") then Some 4 else None
             | [] => None
             end
           else None.

Fixpoint span_sep (sep : char -> bool) (s : jsstring) : nat :=
  match s with
  | c :: s' => if sep c then S (span_sep sep s') else 0
  | [] => 0
  end.

(** The class [[\s,]] and the greedy run [/[\s,]+/]. *)
Definition is_sep (c : char) : bool := is_space c || char_eqb c (ch ",").

Definition re_seps : matcher :=
  fun s => match span_sep is_sep s with
           | 0 => None
           | n => Some n
           end.

Definition push_front (c : char) (l : list jsstring) : list jsstring :=
  match l with
  | [] => [[c]]
  | h :: t => (c :: h) :: t
  end.

(** [s.split(sep)]: the pieces of [s] between the matches of [sep], found
    from left to right; a match is tried at every position not already
    consumed by an earlier one. *)
Function split_on (m : matcher) (s : jsstring) {measure length s}
  : list jsstring :=
  match s with
  | [] => [[]]
  | c :: s' =>
      match m s with
      | Some (S n) => [] :: split_on m (skipn n s')
      | _ => push_front c (split_on m s')
      end
  end.
Proof.
  - intros. simpl. lia.
  - intros. simpl. rewrite length_skipn. lia.
  - intros. simpl. lia.
Defined.

(** [s.replace(/re/g, rep)] for a replacement without [$] patterns. *)
Function replace_all (m : matcher) (rep s : jsstring) {measure length s}
  : jsstring :=
  match s with
  | [] => []
  | c :: s' =>
      match m s with
      | Some (S n) => rep ++ replace_all m rep (skipn n s')
      | _ => c :: replace_all m rep s'
      end
  end.
Proof.
  - intros. simpl. lia.
  - intros. simpl. rewrite length_skipn. lia.
  - intros. simpl. lia.
Defined.

(** [s.replace(pat, rep)] with a string pattern: only the first occurrence
    is replaced. *)
Fixpoint replace_first (pat rep s : jsstring) {struct s} : jsstring :=
  if starts_with pat s then rep ++ skipn (length pat) s
  else match s with
       | [] => []
       | c :: s' => c :: replace_first pat rep s'
       end.

(** [l.join(sep)] *)
Fixpoint join (sep : jsstring) (l : list jsstring) : jsstring :=
  match l with
  | [] => []
  | [x] => x
  | x :: rest => x ++ sep ++ join sep rest
  end.

(** [s.match(/^\s*$/)] finds a match: [s] is empty or all spaces. *)
Definition all_space (s : jsstring) : bool := forallb is_space s.

(** ** Values and completions *)

#[local] Set Warnings "-register-all".

(** The values the widget meets.  Numbers are the integral ones and
    [NaN]; an array holds strings (a match result, a toolbar list). *)
Inductive js_value : Type :=
| JUndefined
| JNull
| JBool (b : bool)
| JNum (n : Z)
| JNaN
| JStr (s : jsstring)
| JArr (items : list jsstring)
| JObj (props : list (string * js_value)).

(** [ToBoolean]: [undefined], [null], [false], [0], [NaN] and the empty
    string are falsy; everything else, objects and arrays included, is
    truthy. *)
Definition truthy (v : js_value) : bool :=
  match v with
  | JUndefined | JNull | JNaN => false
  | JBool b => b
  | JNum n => negb (Z.eqb n 0)
  | JStr s => match s with [] => false | _ :: _ => true end
  | JArr _ | JObj _ => true
  end.

Definition is_string (v : js_value) : bool :=
  match v with
  | JStr _ => true
  | _ => false
  end.

Inductive js_error : Type :=
| TypeError
| SyntaxError
| RpcError.

Inductive completion (A : Type) : Type :=
| Normal (a : A)
| Throw (e : js_error).
Arguments Normal {A} a.
Arguments Throw {A} e.

Definition bind {A B} (c : completion A) (k : A -> completion B)
  : completion B :=
  match c with
  | Normal a => k a
  | Throw e => Throw e
  end.

Notation "x <- c ;; k" := (bind c (fun x => k))
  (at level 61, c at next level, right associativity).

(** [a && b]: [a] when it is falsy, otherwise whatever [b] evaluates to. *)
Definition js_and (a : js_value) (b : completion js_value)
  : completion js_value :=
  if truthy a then b else Normal a.

(** [a || b] with a value on the right. *)
Definition js_or (a b : js_value) : js_value :=
  if truthy a then a else b.

(** [v !== "s"] against a string literal. *)
Definition strict_neq_str (v : js_value) (s : jsstring) : js_value :=
  match v with
  | JStr t => JBool (negb (str_eqb t s))
  | _ => JBool true
  end.

(** A call [v.method(...)] of a [String.prototype] method: only strings
    have it, on anything else the call is a [TypeError]
    ("v.method is not a function", or a property read on [undefined]). *)
Definition string_method {A} (v : js_value) (f : jsstring -> A)
  : completion A :=
  match v with
  | JStr s => Normal (f s)
  | _ => Throw TypeError
  end.

(** [s.match(/\S/)]: the match array holding the first non-space code
    unit, or [null]. *)
Definition match_non_space (s : jsstring) : js_value :=
  match find non_space s with
  | Some c => JArr [[c]]
  | None => JNull
  end.

(** ** [isSet] *)

Definition NBSP : jsstring := lit "&nbsp;".
Definition P_EMPTY : jsstring := lit "<p></p>".
Definition P_BR : jsstring := lit "<p><br></p>".

(** [v.split("&nbsp;").join("").replace(/\s/g, "")] *)
Definition strip_spaces (v : jsstring) : jsstring :=
  replace_all re_space [] (join [] (split_on (re_lit NBSP) v)).

Definition isSet (this_value : js_value) : completion js_value :=
  value <- js_and this_value
             (string_method this_value (fun s => JStr (strip_spaces s))) ;;
  js_and value
    (js_and (strict_neq_str value P_EMPTY)
       (js_and (strict_neq_str value P_BR)
          (string_method value match_non_space))).

(** The widget is shown as empty when [isSet] is falsy: [!this.isSet()]. *)
Definition isEmpty (this_value : js_value) : completion js_value :=
  r <- isSet this_value ;;
  Normal (JBool (negb (truthy r))).

(** ** [_textToHtml] *)

Definition P_BLANK : jsstring := lit "<p><br/></p>".

(** The [else] branch of the handler: wrap, then the four replacements. *)
Definition wrap_paragraphs (value : jsstring) : jsstring :=
  lit "<p>" ++ join (lit "<br/></p><p>") (split_on re_br value) ++ lit "</p>".

Definition collapse (value : jsstring) : jsstring :=
  replace_first (lit "</p></p>") (lit "</p>")
    (replace_first (lit "<p><p ") (lit "<p ")
       (replace_first (lit "<p><p>") (lit "<p>")
          (replace_all (re_lit P_EMPTY) [] value))).

Definition text_fallback (value : jsstring) : jsstring :=
  if all_space value then P_BLANK
  else collapse (wrap_paragraphs value).

Section TextToHtml.

(** jQuery is not part of the widget.  [jq v] stands for [$(v)]: it
    throws (a selector that Sizzle rejects) or gives a collection of
    elements, which depends on the selector and on the page. *)
Variable element : Type.
Variable jq : js_value -> completion (list element).

(** [$(text)[0].innerHTML]: reading [innerHTML] of [undefined], the
    first item of an empty collection, is a [TypeError]. *)
Definition probe (text : js_value) : completion unit :=
  found <- jq text ;;
  match found with
  | [] => Throw TypeError
  | _ :: _ => Normal tt
  end.

Definition probe_raises (text : js_value) : bool :=
  match probe text with
  | Normal _ => false
  | Throw _ => true
  end.

Definition _textToHtml (text : js_value) : completion js_value :=
  let value := js_or text (JStr []) in
  match probe text with
  | Normal _ => Normal value
  | Throw _ => string_method value (fun v => JStr (text_fallback v))
  end.

End TextToHtml.

Arguments probe {element} jq text.
Arguments probe_raises {element} jq text.
Arguments _textToHtml {element} jq text.

(** A page used for the examples: markup (a string whose first character
    is "<") gives one element, a blank string or a falsy argument gives the
    empty collection, and any other string is a selector that Sizzle
    rejects. *)
Definition jq_page (v : js_value) : completion (list unit) :=
  match v with
  | JStr (c :: s) =>
      if char_eqb c (ch "<") then Normal [tt]
      else if all_space (c :: s) then Normal []
      else Throw SyntaxError
  | _ => if truthy v then Normal [tt] else Normal []
  end.

(** ** [_getCKEditorToolbarItems] *)

(** What [await getCKEditorConfigPromise] finds: the configuration sent by
    the backend, or a rejection. *)
Inductive settled : Type :=
| Fulfilled (ckconfig : js_value)
| Rejected (reason : js_error).

Fixpoint lookup_prop (key : string) (props : list (string * js_value))
  : js_value :=
  match props with
  | [] => JUndefined
  | (k, v) :: rest => if String.eqb k key then v else lookup_prop key rest
  end.

(** [v.key]: a [TypeError] on [undefined] and [null], [undefined] when the
    property is missing. *)
Definition get_prop (v : js_value) (key : string) : completion js_value :=
  match v with
  | JUndefined | JNull => Throw TypeError
  | JObj props => Normal (lookup_prop key props)
  | _ => Normal JUndefined
  end.

Definition DEFAULT_TOOLBAR : list jsstring :=
  [ lit "undo"; lit "redo"; lit "findAndReplace"; lit "pageBreak";
    lit "restrictedEditingException"; lit "|"; lit "heading"; lit "|";
    lit "style"; lit "|"; lit "textPartLanguage"; lit "|";
    lit "fontFamily"; lit "fontSize"; lit "fontColor";
    lit "fontBackgroundColor"; lit "highlight"; lit "|";
    lit "bold"; lit "italic"; lit "underline"; lit "strikethrough";
    lit "superscript"; lit "subscript"; lit "removeFormat"; lit "|";
    lit "alignment"; lit "indent"; lit "outdent"; lit "|";
    lit "bulletedList"; lit "numberedList"; lit "todoList"; lit "|";
    lit "link"; lit "specialCharacters"; lit "blockQuote";
    lit "insertTable"; lit "imageUpload"; lit "horizontalLine"; lit "|";
    lit "code"; lit "codeBlock"; lit "htmlEmbed"; lit "mediaEmbed" ].

Definition WARNINGS : list string :=
  [ "Unable to use CKEditor toolbar configuration: ";
    "Please check the value for ir.config_parameter 'web_widget_ckeditor.toolbar' is correct";
    "Using default toolbar configuration" ]%string.

Definition non_empty (item : jsstring) : bool :=
  match item with
  | [] => false
  | _ :: _ => true
  end.

(** [toolbar.split(/[\s,]+/).filter((item) => item)] *)
Definition toolbar_items (toolbar : jsstring) : list jsstring :=
  filter non_empty (split_on re_seps toolbar).

(** The body of the [try]: [Some items] when it returns, [None] when it
    falls through to the default list. *)
Definition try_toolbar (config : settled)
  : completion (option (list jsstring)) :=
  match config with
  | Rejected reason => Throw reason
  | Fulfilled ckconfig =>
      toolbar <- get_prop ckconfig "toolbar" ;;
      if truthy toolbar then
        items <- string_method toolbar toolbar_items ;;
        Normal (Some items)
      else Normal None
  end.

(** The result is paired with the lines written by [console.warn]. *)
Definition _getCKEditorToolbarItems (config : settled)
  : list string * completion (list jsstring) :=
  match try_toolbar config with
  | Normal (Some items) => ([], Normal items)
  | Normal None => ([], Normal DEFAULT_TOOLBAR)
  | Throw _ => (WARNINGS, Normal DEFAULT_TOOLBAR)
  end.

(** ** [destroy] *)

Section Destroy.

(** [editor] is the CKEditor instance; [base] is the state that the
    framework's own [destroy], reached through [this._super()], works
    on.  The base class has no [ckeditor] property. *)
Variable editor : Type.
Variable base : Type.
Variable super_destroy : base -> base.

Record widget : Type := Widget {
  ckeditor : option editor;       (* [undefined] or the instance *)
  released : list editor;         (* calls of [ckeditor.destroy()], latest first *)
  framework : base
}.

Definition destroy (this : widget) : widget :=
  let this' :=
    match ckeditor this with
    | Some instance =>
        {| ckeditor := None;
           released := instance :: released this;
           framework := framework this |}
    | None => this
    end in
  {| ckeditor := ckeditor this';
     released := released this';
     framework := super_destroy (framework this') |}.

End Destroy.

Arguments Widget {editor base} ckeditor released framework.
Arguments ckeditor {editor base} w.
Arguments released {editor base} w.
Arguments framework {editor base} w.
Arguments destroy {editor base} super_destroy this.


(** ** The localization script *)

(** [session.user_context.lang.split("_")[0]]: the first piece of the
    locale; [split] always gives at least one piece. *)
Definition CKEditorLanguageCode (lang : jsstring) : jsstring :=
  hd [] (split_on (re_lit (lit "_")) lang).

Definition TRANSLATIONS : jsstring :=
  lit "/web_widget_ckeditor/static/lib/ckeditor/build/translations/".

Definition languageURL (languageCode : jsstring) : jsstring :=
  TRANSLATIONS ++ languageCode ++ lit ".js".

(** What the loader does to the outside: a script request, a line of
    [console.warn] with its argument. *)
Inductive effect : Type :=
| LoadJS (url : jsstring)
| Warn (message : string) (argument : jsstring).

Section Language.

(** [ajax.loadJS(url)] belongs to the framework; the call is not awaited,
    so only what it throws at once reaches the handler. *)
Variable loadJS : jsstring -> completion unit.

Definition loadCKEditorLanguageSource (languageCode : jsstring)
  : list effect * completion unit :=
  if str_eqb languageCode (lit "en") then ([], Normal tt)
  else
    match loadJS (languageURL languageCode) with
    | Normal _ => ([LoadJS (languageURL languageCode)], Normal tt)
    | Throw _ =>
        ([LoadJS (languageURL languageCode);
          Warn "Unable to load CKEditor language: " languageCode],
         Normal tt)
    end.

End Language.

(** ** The widget on the page *)

Inductive mode_t : Type :=
| Edit
| Readonly.

(** Where an event comes from: [event.target === this] or not. *)
Inductive origin : Type :=
| Self
| Other.

(** The calls made on the editor, on the textarea [this.$target] and on
    the read-only node [this.$content]. *)
Inductive ui_call (editor : Type) : Type :=
| EditorFocus (instance : editor)
| EditorSetData (instance : editor) (data : js_value)
| EditorGetData (instance : editor)
| TargetVal
| ContentHtml (markup : js_value).
Arguments EditorFocus {editor} instance.
Arguments EditorSetData {editor} instance data.
Arguments EditorGetData {editor} instance.
Arguments TargetVal {editor}.
Arguments ContentHtml {editor} markup.

Section Page.

Variable editor : Type.
Variable base : Type.
Variable element : Type.
Variable jq : js_value -> completion (list element).

(** The widget with what the rendering adds to it: [this.mode],
    [this.value], and whether [this.$target] (set by [_renderEdit]) and
    [this.$content] (set by [_renderReadonly]) exist. *)
Record field : Type := Field {
  core : widget editor base;
  mode : mode_t;
  value : js_value;
  has_target : bool;
  has_content : bool
}.

(** [activate]: [true] after a focus, [undefined] otherwise. *)
Definition activate (this : field) : list (ui_call editor) * js_value :=
  match ckeditor (core this) with
  | Some instance => ([EditorFocus instance], JBool true)
  | None => ([], JUndefined)
  end.

(** [_getValue]: reading [val] of a [$target] that was never set is a
    [TypeError]. *)
Definition _getValue (this : field) : completion (list (ui_call editor)) :=
  match mode this, ckeditor (core this) with
  | Edit, Some instance => Normal [EditorGetData instance]
  | _, _ => if has_target this then Normal [TargetVal] else Throw TypeError
  end.

(** [reset].  [this._reset(record, event)] is the framework's: it stores
    the value of the record in [this.value]; [new_value] is that value. *)
Definition reset (this : field) (new_value : js_value)
    (event : option origin)
  : field * completion (list (ui_call editor)) :=
  let this' :=
    {| core := core this; mode := mode this; value := new_value;
       has_target := has_target this; has_content := has_content this |} in
  (this',
   markup <- _textToHtml jq (value this') ;;
   match event with
   | Some Self => Normal []
   | _ =>
       match mode this' with
       | Edit =>
           match ckeditor (core this') with
           | Some instance => Normal [EditorSetData instance markup]
           | None => Throw TypeError
           end
       | Readonly =>
           if has_content this' then Normal [ContentHtml markup]
           else Throw TypeError
       end
   end).

(** [_renderReadonly]: the node is created, filled and kept. *)
Definition _renderReadonly (this : field)
  : field * completion (list (ui_call editor)) :=
  match _textToHtml jq (value this) with
  | Normal markup =>
      ({| core := core this; mode := mode this; value := value this;
          has_target := has_target this; has_content := true |},
       Normal [ContentHtml markup])
  | Throw e => (this, Throw e)
  end.

(** [destroy] on the rendered widget: the nodes stay as they are. *)
Definition destroy_field (super_destroy : base -> base) (this : field)
  : field :=
  {| core := destroy super_destroy (core this); mode := mode this;
     value := value this; has_target := has_target this;
     has_content := has_content this |}.

End Page.

Arguments Field {editor base} core mode value has_target has_content.
Arguments core {editor base} f.
Arguments mode {editor base} f.
Arguments value {editor base} f.
Arguments has_target {editor base} f.
Arguments has_content {editor base} f.
Arguments activate {editor base} this.
Arguments _getValue {editor base} this.
Arguments reset {editor base element} jq this new_value event.
Arguments _renderReadonly {editor base element} jq this.
Arguments destroy_field {editor base} super_destroy this.

(** ** Predicates used in the statements *)

(** The emptiness rule in the words of the specification: what is left
    after stripping is empty, one of the two blank paragraphs, or has no
    non-space character. *)
Definition blank_after_strip (r : jsstring) : bool :=
  str_eqb r [] || str_eqb r P_EMPTY || str_eqb r P_BR
  || negb (existsb non_space r).

(** A field value as the record holds it: a string, or a falsy value such
    as the [false] of an unset field. *)
Definition field_value (v : js_value) : bool :=
  is_string v || negb (truthy v).

(** One pass from left to right that cuts out the occurrences of [pat]:
    each cut is at the first occurrence in what is left to read. *)
Inductive removed_all (pat : jsstring) : jsstring -> jsstring -> Prop :=
| ra_none s :
    occurs pat s = false -> removed_all pat s s
| ra_cut pre post post' :
    occurs pat (pre ++ removelast pat) = false ->
    removed_all pat post post' ->
    removed_all pat (pre ++ pat ++ post) (pre ++ post').

(** The first occurrence of [pat], if there is one, becomes [rep]; the
    rest of the string is left as it is. *)
Inductive first_merged (pat rep : jsstring) : jsstring -> jsstring -> Prop :=
| fm_none s :
    occurs pat s = false -> first_merged pat rep s s
| fm_first pre post :
    occurs pat (pre ++ removelast pat) = false ->
    first_merged pat rep (pre ++ pat ++ post) (pre ++ rep ++ post).

(** No empty paragraph and no doubled paragraph tag is left. *)
Definition artifact_free (o : jsstring) : bool :=
  negb (occurs P_EMPTY o)
  && negb (occurs (lit "<p><p>") o)
  && negb (occurs (lit "</p></p>") o).

(** [visible_head c s]: reading [s] from the left, past space characters
    and "&nbsp;" entities, the first character met is [c], and [c] is
    neither a space nor one of "<" and "&". *)
Inductive visible_head (c : char) : jsstring -> Prop :=
| vh_here v :
    is_space c = false -> c <> ch "<" -> c <> ch "&" ->
    visible_head c (c :: v)
| vh_space x s :
    is_space x = true -> visible_head c s -> visible_head c (x :: s)
| vh_nbsp s :
    visible_head c s -> visible_head c (NBSP ++ s).

(** A function on strings that copies everything up to the first "<". *)
Definition keeps_plain (F : jsstring -> jsstring) : Prop :=
  forall x s, x <> ch "<" -> F (x :: s) = x :: F s.

(** A function that leaves an opening "<p>" alone when the next character
    is not "<". *)
Definition keeps_front (F : jsstring -> jsstring) : Prop :=
  forall x s, x <> ch "<" ->
              F (lit "<p>" ++ x :: s) = lit "<p>" ++ F (x :: s).

(** An item stops at the end of the string or at a separator. *)
Definition boundary (s : jsstring) : Prop :=
  match s with
  | [] => True
  | c :: _ => is_sep c = true
  end.

(** The items of a toolbar string: the maximal runs of characters that are
    neither spaces nor commas, in order. *)
Inductive items_of : jsstring -> list jsstring -> Prop :=
| items_end : items_of [] []
| items_sep c s l :
    is_sep c = true -> items_of s l -> items_of (c :: s) l
| items_word w s l :
    w <> [] ->
    Forall (fun c => is_sep c = false) w -> boundary s ->
    items_of s l -> items_of (w ++ s) (w :: l).


(** ** Predicates used in the further statements *)

(** A value that [_textToHtml] reads as blank: a falsy value, or a string
    of spaces only. *)
Definition blank_value (v : js_value) : bool :=
  match v with
  | JStr s => all_space s
  | _ => negb (truthy v)
  end.

(** A toolbar identifier: not empty, without space or comma. *)
Definition is_item (w : jsstring) : bool :=
  non_empty w && forallb (fun c => negb (is_sep c)) w.

(** A piece of text without any "<". *)
Definition plain (s : jsstring) : bool :=
  forallb (fun c => negb (char_eqb c (ch "<"))) s.

(** One paragraph for each segment: every paragraph but the last ends with
    "<br/>", and an empty last segment gives no paragraph. *)
Fixpoint paragraphs (l : list jsstring) : jsstring :=
  match l with
  | [] => []
  | s :: rest =>
      match rest with
      | [] => match s with
              | [] => []
              | _ :: _ => lit "<p>" ++ s ++ lit "</p>"
              end
      | _ :: _ => lit "<p>" ++ s ++ lit "<br/></p>" ++ paragraphs rest
      end
  end.

(** [u] put in front of the first piece of a split. *)
Definition prepend (u : jsstring) (l : list jsstring) : list jsstring :=
  match l with
  | [] => [u]
  | h :: t => (u ++ h) :: t
  end.

(** The four patterns that [_textToHtml] looks for. *)
Definition artifact (p : jsstring) : Prop :=
  p = lit "<p></p>" \/ p = lit "<p><p>" \/ p = lit "<p><p "
  \/ p = lit "</p></p>".

(** The part of a locale before its first "_". *)
Fixpoint before_underscore (s : jsstring) : jsstring :=
  match s with
  | [] => []
  | c :: s' => if char_eqb c (ch "_") then [] else c :: before_underscore s'
  end.

(** ** Unfolding the scanners *)

Lemma split_on_nil m : split_on m [] = [[]].
Proof. rewrite split_on_equation. reflexivity. Qed.

Lemma split_on_match m c s n :
  m (c :: s) = Some (S n) ->
  split_on m (c :: s) = [] :: split_on m (skipn n s).
Proof.
  intros H. rewrite split_on_equation, H. reflexivity.
Qed.

Lemma split_on_no_match m c s :
  m (c :: s) = None ->
  split_on m (c :: s) = push_front c (split_on m s).
Proof.
  intros H. rewrite split_on_equation, H. reflexivity.
Qed.

Lemma replace_all_nil m rep : replace_all m rep [] = [].
Proof. rewrite replace_all_equation. reflexivity. Qed.

Lemma replace_all_match m rep c s n :
  m (c :: s) = Some (S n) ->
  replace_all m rep (c :: s) = rep ++ replace_all m rep (skipn n s).
Proof.
  intros H. rewrite replace_all_equation, H. reflexivity.
Qed.

Lemma replace_all_no_match m rep c s :
  m (c :: s) = None ->
  replace_all m rep (c :: s) = c :: replace_all m rep s.
Proof.
  intros H. rewrite replace_all_equation, H. reflexivity.
Qed.

(** ** Reading a string from the left *)

Lemma char_eqb_eq a b : char_eqb a b = true <-> a = b.
Proof. apply N.eqb_eq. Qed.

Lemma str_eqb_eq a b : str_eqb a b = true <-> a = b.
Proof.
  revert b. induction a as [|x a IH]; intros [|y b]; simpl;
    try (split; [discriminate | intros E; discriminate E]);
    try (split; reflexivity).
  rewrite andb_true_iff, char_eqb_eq, IH.
  split; [intros [-> ->]; reflexivity | intros E; inversion E; auto].
Qed.

(** The scanners step to the tail or jump over a match: a property that
    passes from all the suffixes of [s] to [c :: s] holds of every
    string. *)
Lemma suffix_ind (P : jsstring -> Prop) :
  P [] ->
  (forall c s, (forall n, P (skipn n s)) -> P (c :: s)) ->
  forall s, P s.
Proof.
  intros Hnil Hcons s.
  assert (forall k t, length t <= k -> P t) as H.
  { induction k as [|k IH]; intros [|c t] Hlen; simpl in Hlen;
      try exact Hnil; try lia.
    apply Hcons. intros n. apply IH.
    rewrite length_skipn. lia. }
  apply (H (length s)). lia.
Qed.

Lemma starts_with_split pat s :
  starts_with pat s = true -> s = pat ++ skipn (length pat) s.
Proof.
  revert s. induction pat as [|p pat IH]; intros s H; [reflexivity |].
  destruct s as [|c s]; simpl in H; [discriminate |].
  apply andb_true_iff in H as [Hc Hs].
  apply char_eqb_eq in Hc. subst c. simpl. f_equal. apply IH, Hs.
Qed.

Lemma starts_with_app pat s : starts_with pat (pat ++ s) = true.
Proof.
  induction pat as [|p pat IH]; simpl; [reflexivity |].
  rewrite IH. unfold char_eqb. rewrite N.eqb_refl. reflexivity.
Qed.

Lemma starts_with_longer pat a b :
  starts_with pat a = true -> starts_with pat (a ++ b) = true.
Proof.
  revert a. induction pat as [|p pat IH]; intros a H; [reflexivity |].
  destruct a as [|c a]; simpl in *; [discriminate |].
  apply andb_true_iff in H as [Hc Hs].
  rewrite Hc, (IH _ Hs). reflexivity.
Qed.

Lemma starts_with_length pat s :
  starts_with pat s = true -> length pat <= length s.
Proof.
  revert s. induction pat as [|p pat IH]; intros s H; simpl; [lia |].
  destruct s as [|c s]; simpl in *; [discriminate |].
  apply andb_true_iff in H as [_ Hs]. apply IH in Hs. lia.
Qed.

Lemma occurs_length pat s :
  occurs pat s = true -> length pat <= length s.
Proof.
  induction s as [|c s IH]; simpl; intros H.
  - rewrite orb_false_r in H. apply starts_with_length in H. exact H.
  - apply orb_true_iff in H as [H|H].
    + apply starts_with_length in H. exact H.
    + apply IH in H. lia.
Qed.

Lemma occurs_removelast pat :
  pat <> [] -> occurs pat (removelast pat) = false.
Proof.
  intros Hne. destruct (occurs pat (removelast pat)) eqn:E; [| reflexivity].
  apply occurs_length in E.
  rewrite (app_removelast_last 0%N Hne) in E at 1.
  rewrite length_app in E. simpl in E. lia.
Qed.

Lemma occurs_cons pat c s :
  occurs pat (c :: s) = starts_with pat (c :: s) || occurs pat s.
Proof. reflexivity. Qed.

Lemma occurs_nil pat : pat <> [] -> occurs pat [] = false.
Proof. destruct pat; [congruence | reflexivity]. Qed.

(** If [pat] does not start at [c], the first occurrence found in the tail
    is still the first one. *)
Lemma first_occurrence_cons pat c pre post :
  pat <> [] ->
  starts_with pat (c :: pre ++ pat ++ post) = false ->
  occurs pat (pre ++ removelast pat) = false ->
  occurs pat ((c :: pre) ++ removelast pat) = false.
Proof.
  intros Hne Hc Hpre. simpl app. rewrite occurs_cons, Hpre, orb_false_r.
  destruct (starts_with pat (c :: pre ++ removelast pat)) eqn:E;
    [| reflexivity].
  apply (starts_with_longer _ _ ([last pat 0%N] ++ post)) in E.
  assert (c :: pre ++ pat ++ post
          = (c :: pre ++ removelast pat) ++ [last pat 0%N] ++ post) as X.
  { simpl. f_equal. rewrite <- app_assoc. f_equal.
    transitivity ((removelast pat ++ [last pat 0%N]) ++ post).
    - rewrite <- (app_removelast_last 0%N Hne). reflexivity.
    - rewrite <- app_assoc. reflexivity. }
  rewrite X in Hc. congruence.
Qed.

Lemma re_lit_match pat s :
  pat <> [] -> starts_with pat s = true ->
  exists n, length pat = S n /\ re_lit pat s = Some (S n).
Proof.
  intros Hne H. unfold re_lit. rewrite H.
  destruct pat as [|p pat]; [congruence |].
  exists (length pat). split; reflexivity.
Qed.

Lemma re_lit_no_match pat s :
  starts_with pat s = false -> re_lit pat s = None.
Proof. intros H. unfold re_lit. rewrite H. reflexivity. Qed.

Lemma join_push_front sep c l :
  join sep (push_front c l) = c :: join sep l.
Proof.
  destruct l as [|h [|h' t]]; reflexivity.
Qed.

(** ** Strings: equality and prefixes *)

Lemma existsb_non_space_false r :
  existsb non_space r = false <-> Forall (fun c => is_space c = true) r.
Proof.
  induction r as [|c r IH]; simpl.
  - split; [constructor | reflexivity].
  - rewrite orb_false_iff, IH. unfold non_space. rewrite negb_false_iff.
    split; [intros [? ?]; constructor; assumption
           | intros H; inversion H; auto].
Qed.

Lemma find_non_space_none r :
  find non_space r = None <-> existsb non_space r = false.
Proof.
  induction r as [|c r IH]; simpl; [tauto |].
  destruct (non_space c); simpl; [split; discriminate | exact IH].
Qed.

(** ** [isSet] and its negation *)

Lemma isEmpty_string_unfold s :
  isEmpty (JStr s) = Normal (JBool (blank_after_strip (strip_spaces s))).
Proof.
  destruct s as [|c s].
  - reflexivity.
  - unfold isEmpty, isSet, blank_after_strip.
    cbn [js_and truthy bind string_method].
    destruct (strip_spaces (c :: s)) as [|d r] eqn:E.
    + reflexivity.
    + cbn [js_and truthy bind strict_neq_str string_method].
      change (str_eqb (d :: r) []) with false. cbn [orb].
      destruct (str_eqb (d :: r) P_EMPTY) eqn:E1; [reflexivity |].
      cbn [negb truthy js_and].
      destruct (str_eqb (d :: r) P_BR) eqn:E2; [reflexivity |].
      cbn [negb truthy js_and string_method bind orb].
      unfold match_non_space.
      destruct (find non_space (d :: r)) as [x|] eqn:F.
      * assert (existsb non_space (d :: r) = true) as ->.
        { destruct (existsb non_space (d :: r)) eqn:X; [reflexivity |].
          apply find_non_space_none in X. congruence. }
        reflexivity.
      * apply find_non_space_none in F. rewrite F. reflexivity.
Qed.

(** C4: on every field value (a string, or a falsy value) the negation of
    [isSet] completes, and with a boolean. *)
Theorem isEmpty_boolean v :
  field_value v = true -> exists b, isEmpty v = Normal (JBool b).
Proof.
  destruct v as [| |b|n| |s|items|props]; unfold field_value; simpl;
    try discriminate; intros H.
  - exists true. reflexivity.
  - exists true. reflexivity.
  - rewrite negb_true_iff in H. subst b. exists true. reflexivity.
  - exists true. unfold isEmpty, isSet, js_and, bind, truthy.
    destruct (n =? 0)%Z eqn:E; [| discriminate].
    simpl. rewrite E. simpl. rewrite E. reflexivity.
  - exists true. reflexivity.
  - eexists. apply isEmpty_string_unfold.
Qed.

Lemma isEmpty_boolean_witness :
  (exists b, isEmpty (JBool false) = Normal (JBool b))
  /\ (exists b, isEmpty (JStr (lit "<p>hi</p>")) = Normal (JBool b)).
Proof.
  split; apply isEmpty_boolean; reflexivity.
Defined.

(** Outside the field values the call does throw: a truthy value that is
    not a string has no [split]. *)
Lemma isSet_truthy_non_string v :
  truthy v = true -> is_string v = false -> isSet v = Throw TypeError.
Proof.
  destruct v; simpl; try discriminate; intros H _;
    unfold isSet, js_and; simpl; try rewrite H; reflexivity.
Qed.

(** ** [_textToHtml]: the three exits *)

Section TextToHtmlFacts.

Variable element : Type.
Variable jq : js_value -> completion (list element).

Lemma probe_raises_true text :
  probe_raises jq text = true -> exists e, probe jq text = Throw e.
Proof.
  unfold probe_raises. destruct (probe jq text); [discriminate |].
  intros _. eexists. reflexivity.
Qed.

Lemma probe_raises_false text :
  probe_raises jq text = false -> probe jq text = Normal tt.
Proof.
  unfold probe_raises. destruct (probe jq text) as [[]|]; [|discriminate].
  reflexivity.
Qed.

Lemma textToHtml_fallback s :
  probe_raises jq (JStr s) = true ->
  _textToHtml jq (JStr s) = Normal (JStr (text_fallback s)).
Proof.
  intros H. apply probe_raises_true in H as [e H].
  unfold _textToHtml. rewrite H.
  destruct s; reflexivity.
Qed.

(** C7: on the fallback path an empty or all-space string gives the one
    blank paragraph. *)
Theorem textToHtml_blank s :
  all_space s = true ->
  probe_raises jq (JStr s) = true ->
  _textToHtml jq (JStr s) = Normal (JStr (lit "<p><br/></p>")).
Proof.
  intros Hs H. rewrite (textToHtml_fallback _ H).
  unfold text_fallback. rewrite Hs. reflexivity.
Qed.

(** C9: a string on which the probe does not raise comes back unchanged,
    so a second pass changes nothing. *)
Theorem textToHtml_html_unchanged s :
  probe_raises jq (JStr s) = false ->
  _textToHtml jq (JStr s) = Normal (JStr s)
  /\ (x <- _textToHtml jq (JStr s) ;; _textToHtml jq x)
     = _textToHtml jq (JStr s).
Proof.
  intros H.
  assert (_textToHtml jq (JStr s) = Normal (JStr s)) as E.
  { apply probe_raises_false in H. unfold _textToHtml. rewrite H.
    destruct s; reflexivity. }
  split; [exact E |].
  rewrite E. simpl. exact E.
Qed.

(** C10: with jQuery giving the empty collection for a falsy argument,
    every falsy input is read as the empty string and gives the blank
    paragraph; nothing is thrown. *)
Theorem textToHtml_falsy :
  (forall u, truthy u = false -> jq u = Normal []) ->
  forall v, truthy v = false ->
            js_or v (JStr (lit "")) = JStr (lit "")
            /\ _textToHtml jq v = Normal (JStr (lit "<p><br/></p>")).
Proof.
  intros Hjq v Hv. unfold _textToHtml, probe, js_or.
  rewrite (Hjq v Hv), Hv. split; reflexivity.
Qed.

(** C1, as the code has it: every paragraph but the last keeps the
    "<br/>" of the join string. *)
Theorem textToHtml_hello_world :
  probe_raises jq (JStr (lit "Hello<br>World")) = true ->
  _textToHtml jq (JStr (lit "Hello<br>World"))
  = Normal (JStr (lit "<p>Hello<br/></p><p>World</p>")).
Proof.
  intros H. rewrite (textToHtml_fallback _ H).
  vm_compute. reflexivity.
Qed.

End TextToHtmlFacts.

Lemma jq_page_falsy u : truthy u = false -> jq_page u = Normal [].
Proof.
  destruct u as [| |b|n| |s|items|props]; simpl; try discriminate;
    try reflexivity.
  - intros ->. reflexivity.
  - intros ->. reflexivity.
  - destruct s; [reflexivity | discriminate].
Qed.

Lemma textToHtml_blank_witness :
  _textToHtml jq_page (JStr (lit "")) = Normal (JStr (lit "<p><br/></p>"))
  /\ _textToHtml jq_page (JStr (lit "   ")) = Normal (JStr (lit "<p><br/></p>")).
Proof.
  split; apply textToHtml_blank; reflexivity.
Defined.

Lemma textToHtml_html_unchanged_witness :
  _textToHtml jq_page (JStr (lit "<p>Hello</p>"))
  = Normal (JStr (lit "<p>Hello</p>"))
  /\ (x <- _textToHtml jq_page (JStr (lit "<p>Hello</p>")) ;;
      _textToHtml jq_page x)
     = _textToHtml jq_page (JStr (lit "<p>Hello</p>")).
Proof.
  apply textToHtml_html_unchanged. reflexivity.
Defined.

Lemma textToHtml_falsy_witness :
  (js_or JNull (JStr (lit "")) = JStr (lit "")
   /\ _textToHtml jq_page JNull = Normal (JStr (lit "<p><br/></p>")))
  /\ (js_or (JBool false) (JStr (lit "")) = JStr (lit "")
      /\ _textToHtml jq_page (JBool false)
         = Normal (JStr (lit "<p><br/></p>"))).
Proof.
  split; apply (textToHtml_falsy unit jq_page jq_page_falsy); reflexivity.
Defined.

Lemma textToHtml_hello_world_witness :
  _textToHtml jq_page (JStr (lit "Hello<br>World"))
  = Normal (JStr (lit "<p>Hello<br/></p><p>World</p>")).
Proof.
  apply textToHtml_hello_world. reflexivity.
Defined.

(** C1 as the specification has it does not hold: the first paragraph of
    the result ends with "<br/>". *)
Lemma textToHtml_hello_world_keeps_br :
  probe_raises jq_page (JStr (lit "Hello<br>World")) = true
  /\ _textToHtml jq_page (JStr (lit "Hello<br>World"))
     = Normal (JStr (lit "<p>Hello<br/></p><p>World</p>"))
  /\ _textToHtml jq_page (JStr (lit "Hello<br>World"))
     <> Normal (JStr (lit "<p>Hello</p><p>World</p>")).
Proof.
  split; [reflexivity |]. split; [vm_compute; reflexivity |].
  vm_compute. discriminate.
Qed.

(** ** [destroy] *)

(** C5: after [destroy] the widget holds no editor, a second [destroy]
    releases nothing more, and an editor that was held is released exactly
    once over the two calls. *)
Theorem destroy_releases_once :
  forall (editor base : Type) (super_destroy : base -> base)
         (this : widget editor base),
    let once := destroy super_destroy this in
    let twice := destroy super_destroy once in
    ckeditor once = None
    /\ ckeditor twice = None
    /\ released twice = released once
    /\ released once
       = match ckeditor this with
         | Some instance => instance :: released this
         | None => released this
         end.
Proof.
  intros editor base super_destroy [[instance|] rel fw]; simpl;
    repeat split; reflexivity.
Qed.

(** ** [_getCKEditorToolbarItems] *)

Lemma re_seps_cases c s :
  (is_sep c = false /\ re_seps (c :: s) = None)
  \/ (is_sep c = true /\ re_seps (c :: s) = Some (S (span_sep is_sep s))).
Proof.
  unfold re_seps. simpl. destruct (is_sep c); [right | left]; auto.
Qed.

(** Leading separators belong to no item. *)
Lemma items_of_skip_seps l s :
  items_of (skipn (span_sep is_sep s) s) l -> items_of s l.
Proof.
  induction s as [|c s IH]; simpl; [auto |].
  destruct (is_sep c) eqn:E; simpl; [| auto].
  intros H. apply items_sep; auto.
Qed.

(** The pieces that [split] gives: the first one is free of separators and
    stops at a separator or at the end, and the non-empty ones among the
    others are the items of the rest. *)
Lemma split_seps_shape s :
  exists h t rest,
    split_on re_seps s = h :: t
    /\ s = h ++ rest
    /\ Forall (fun c => is_sep c = false) h
    /\ boundary rest
    /\ items_of rest (filter non_empty t).
Proof.
  induction s as [|c s IH] using suffix_ind.
  - exists [], [], []. rewrite split_on_nil. repeat split; constructor.
  - destruct (re_seps_cases c s) as [[Hc Hm]|[Hc Hm]].
    + rewrite (split_on_no_match _ _ _ Hm).
      destruct (IH 0) as (h & t & rest & E & Es & Hh & Hb & Hi).
      simpl in E, Es. rewrite E. simpl.
      exists (c :: h), t, rest. rewrite Es at 1.
      repeat split; auto.
    + rewrite (split_on_match _ _ _ _ Hm).
      destruct (IH (span_sep is_sep s)) as (h & t & rest & E & Es & Hh & Hb & Hi).
      exists [], (split_on re_seps (skipn (span_sep is_sep s) s)), (c :: s).
      repeat split; auto.
      apply items_sep; [exact Hc |]. apply items_of_skip_seps.
      rewrite E, Es at 1. simpl.
      destruct h as [|x h]; simpl.
      * exact Hi.
      * apply (items_word (x :: h)); auto. discriminate.
Qed.

Lemma toolbar_items_spec s : items_of s (toolbar_items s).
Proof.
  unfold toolbar_items.
  destruct (split_seps_shape s) as (h & t & rest & E & Es & Hh & Hb & Hi).
  rewrite E, Es at 1. simpl.
  destruct h as [|x h]; simpl.
  - exact Hi.
  - apply (items_word (x :: h)); auto. discriminate.
Qed.

Lemma items_of_non_empty s l :
  items_of s l -> Forall (fun item => item <> []) l.
Proof.
  induction 1; auto.
Qed.

Lemma getCKEditorToolbarItems_total config :
  exists items, snd (_getCKEditorToolbarItems config) = Normal items.
Proof.
  unfold _getCKEditorToolbarItems.
  destruct (try_toolbar config) as [[items|]|e]; simpl; eauto.
Qed.

(** C6: a rejected fetch, or a configuration without a toolbar entry,
    gives the default list; a toolbar string gives its items, cut at the
    runs of spaces and commas and none of them empty; the call never
    throws. *)
Theorem getCKEditorToolbarItems_spec :
  (forall reason,
      _getCKEditorToolbarItems (Rejected reason)
      = (WARNINGS, Normal DEFAULT_TOOLBAR))
  /\ (forall ckconfig toolbar,
         get_prop ckconfig "toolbar" = Normal toolbar ->
         truthy toolbar = false ->
         _getCKEditorToolbarItems (Fulfilled ckconfig)
         = ([], Normal DEFAULT_TOOLBAR))
  /\ (forall ckconfig c s,
         get_prop ckconfig "toolbar" = Normal (JStr (c :: s)) ->
         exists items,
           _getCKEditorToolbarItems (Fulfilled ckconfig) = ([], Normal items)
           /\ items_of (c :: s) items
           /\ Forall (fun item => item <> []) items)
  /\ (forall config,
         exists items, snd (_getCKEditorToolbarItems config) = Normal items).
Proof.
  split; [reflexivity |].
  split.
  { intros ckconfig toolbar Hget Hfalsy.
    unfold _getCKEditorToolbarItems, try_toolbar.
    rewrite Hget. cbn [bind]. rewrite Hfalsy. reflexivity. }
  split; [| exact getCKEditorToolbarItems_total].
  intros ckconfig c s Hget.
  exists (toolbar_items (c :: s)).
  split; [| split].
  - unfold _getCKEditorToolbarItems, try_toolbar.
    rewrite Hget. reflexivity.
  - apply toolbar_items_spec.
  - apply (items_of_non_empty _ _ (toolbar_items_spec (c :: s))).
Qed.

(** A configuration as the backend sends it. *)
Example getCKEditorToolbarItems_configured :
  _getCKEditorToolbarItems
    (Fulfilled (JObj [("toolbar"%string, JStr (lit " bold, italic ,,| link  "))]))
  = ([], Normal [lit "bold"; lit "italic"; lit "|"; lit "link"]).
Proof. vm_compute. reflexivity. Qed.

(** A configuration that is [null] makes the property read throw inside
    the [try]: the handler answers with the default list. *)
Example getCKEditorToolbarItems_null_config :
  _getCKEditorToolbarItems (Fulfilled JNull)
  = (WARNINGS, Normal DEFAULT_TOOLBAR).
Proof. reflexivity. Qed.

(** A toolbar string made of separators only gives no item at all, not the
    default list. *)
Example getCKEditorToolbarItems_only_separators :
  _getCKEditorToolbarItems
    (Fulfilled (JObj [("toolbar"%string, JStr (lit " , "))]))
  = ([], Normal []).
Proof. vm_compute. reflexivity. Qed.

(** An empty toolbar string is falsy: it counts as no toolbar entry. *)
Example getCKEditorToolbarItems_empty_string :
  _getCKEditorToolbarItems
    (Fulfilled (JObj [("toolbar"%string, JStr (lit ""))]))
  = ([], Normal DEFAULT_TOOLBAR).
Proof. reflexivity. Qed.

(** ** The replacements of [_textToHtml] *)

(** [s.replace(pat, rep)] with a string pattern touches the first
    occurrence only. *)
Lemma replace_first_spec pat rep s :
  pat <> [] -> first_merged pat rep s (replace_first pat rep s).
Proof.
  intros Hne. induction s as [|c s IH].
  - replace (replace_first pat rep []) with (@nil N)
      by (destruct pat; [congruence | reflexivity]).
    apply fm_none, occurs_nil, Hne.
  - cbn [replace_first].
    destruct (starts_with pat (c :: s)) eqn:E.
    + rewrite (starts_with_split _ _ E) at 1.
      apply (fm_first pat rep [] (skipn (length pat) (c :: s))).
      apply occurs_removelast, Hne.
    + remember (replace_first pat rep s) as r eqn:Er. clear Er.
      destruct IH as [s Hocc | pre post Hocc].
      * apply fm_none.
        rewrite occurs_cons, E, Hocc. reflexivity.
      * apply (fm_first pat rep (c :: pre) post).
        apply (first_occurrence_cons pat c pre post); auto.
Qed.

(** [s.replace(/pat/g, "")] for a literal [pat] cuts out the occurrences
    met in one pass. *)
Lemma replace_all_spec pat s :
  pat <> [] -> removed_all pat s (replace_all (re_lit pat) [] s).
Proof.
  intros Hne. induction s as [|c s IH] using suffix_ind.
  - rewrite replace_all_nil. apply ra_none, occurs_nil, Hne.
  - destruct (starts_with pat (c :: s)) eqn:E.
    + destruct (re_lit_match pat (c :: s) Hne E) as (n & Hlen & Hm).
      rewrite (replace_all_match _ _ _ _ _ Hm). simpl app.
      rewrite (starts_with_split _ _ E) at 1.
      rewrite Hlen. cbn [skipn].
      apply (ra_cut pat [] (skipn n s)).
      * apply occurs_removelast, Hne.
      * apply IH.
    + rewrite (replace_all_no_match _ _ _ _ (re_lit_no_match _ _ E)).
      specialize (IH 0). cbn [skipn] in IH.
      remember (replace_all (re_lit pat) [] s) as r eqn:Er. clear Er.
      destruct IH as [s Hocc | pre post post' Hocc Hrest].
      * apply ra_none.
        rewrite occurs_cons, E, Hocc. reflexivity.
      * apply (ra_cut pat (c :: pre) post post'); [| exact Hrest].
        apply (first_occurrence_cons pat c pre post); auto.
Qed.

Section Collapse.

Variable element : Type.
Variable jq : js_value -> completion (list element).

(** C3, as the code has it: the occurrences of "<p></p>" met in one
    pass over the wrapped text are cut out, and then only the first
    "<p><p>", the first "<p><p " and the first "</p></p>" are merged. *)
Theorem textToHtml_collapse_passes s :
  probe_raises jq (JStr s) = true ->
  all_space s = false ->
  exists a b c o,
    removed_all (lit "<p></p>") (wrap_paragraphs s) a
    /\ first_merged (lit "<p><p>") (lit "<p>") a b
    /\ first_merged (lit "<p><p ") (lit "<p ") b c
    /\ first_merged (lit "</p></p>") (lit "</p>") c o
    /\ _textToHtml jq (JStr s) = Normal (JStr o).
Proof.
  intros Hprobe Hs.
  rewrite (textToHtml_fallback _ jq _ Hprobe).
  unfold text_fallback. rewrite Hs. unfold collapse.
  eexists _, _, _, _.
  split; [apply (replace_all_spec P_EMPTY); discriminate |].
  split; [apply replace_first_spec; discriminate |].
  split; [apply replace_first_spec; discriminate |].
  split; [apply replace_first_spec; discriminate |].
  reflexivity.
Qed.

End Collapse.

Lemma textToHtml_collapse_passes_witness :
  exists a b c o,
    removed_all (lit "<p></p>") (wrap_paragraphs (lit "a<br>")) a
    /\ first_merged (lit "<p><p>") (lit "<p>") a b
    /\ first_merged (lit "<p><p ") (lit "<p ") b c
    /\ first_merged (lit "</p></p>") (lit "</p>") c o
    /\ _textToHtml jq_page (JStr (lit "a<br>")) = Normal (JStr o).
Proof.
  apply textToHtml_collapse_passes; reflexivity.
Defined.

(** C3 as the specification has it does not hold: a second doubled tag
    stays, and an empty paragraph that the removals bring together
    stays. *)
Lemma textToHtml_leaves_artifacts :
  (probe_raises jq_page (JStr (lit "x<p><p>y<p><p>z")) = true
   /\ all_space (lit "x<p><p>y<p><p>z") = false
   /\ _textToHtml jq_page (JStr (lit "x<p><p>y<p><p>z"))
      = Normal (JStr (lit "<p>x<p>y<p><p>z</p>"))
   /\ occurs (lit "<p><p>") (lit "<p>x<p>y<p><p>z</p>") = true
   /\ artifact_free (lit "<p>x<p>y<p><p>z</p>") = false)
  /\ (probe_raises jq_page (JStr (lit "x</p></p>y</p></p>")) = true
      /\ _textToHtml jq_page (JStr (lit "x</p></p>y</p></p>"))
         = Normal (JStr (lit "<p>x</p>y</p></p></p>"))
      /\ occurs (lit "</p></p>") (lit "<p>x</p>y</p></p></p>") = true)
  /\ (probe_raises jq_page (JStr (lit "x<p><p></p></p>")) = true
      /\ _textToHtml jq_page (JStr (lit "x<p><p></p></p>"))
         = Normal (JStr (lit "<p>x<p></p>"))
      /\ occurs (lit "<p></p>") (lit "<p>x<p></p>") = true).
Proof.
  repeat split; vm_compute; reflexivity.
Qed.

(** ** Visible text stays visible *)

Lemma char_neq_eqb a x : x <> a -> char_eqb a x = false.
Proof. intros H. apply N.eqb_neq. congruence. Qed.

Lemma space_not_lt x : is_space x = true -> x <> ch "<".
Proof. intros H ->. discriminate H. Qed.

Lemma space_not_amp x : is_space x = true -> x <> ch "&".
Proof. intros H ->. discriminate H. Qed.

Ltac plain_char :=
  solve [ assumption
        | apply space_not_lt; assumption
        | apply space_not_amp; assumption
        | vm_compute; discriminate ].

(** *** What [strip_spaces] does to the first character *)

Lemma drop_spaces_cons x t :
  replace_all re_space [] (x :: t)
  = if is_space x then replace_all re_space [] t
    else x :: replace_all re_space [] t.
Proof.
  destruct (is_space x) eqn:E.
  - rewrite (replace_all_match re_space [] x t 0); [reflexivity |].
    simpl. rewrite E. reflexivity.
  - apply replace_all_no_match. simpl. rewrite E. reflexivity.
Qed.

Lemma strip_spaces_cons x s :
  starts_with NBSP (x :: s) = false ->
  strip_spaces (x :: s)
  = if is_space x then strip_spaces s else x :: strip_spaces s.
Proof.
  intros H. unfold strip_spaces.
  rewrite (split_on_no_match _ _ _ (re_lit_no_match _ _ H)).
  rewrite join_push_front. apply drop_spaces_cons.
Qed.

Lemma strip_spaces_entity x s :
  starts_with NBSP (x :: s) = true ->
  strip_spaces (x :: s) = strip_spaces (skipn 5 s).
Proof.
  intros H. unfold strip_spaces.
  rewrite (split_on_match (re_lit NBSP) x s 5).
  - destruct (split_on (re_lit NBSP) (skipn 5 s)); reflexivity.
  - unfold re_lit. rewrite H. reflexivity.
Qed.

Lemma not_amp_no_entity x s : x <> ch "&" -> starts_with NBSP (x :: s) = false.
Proof.
  intros H. change NBSP with (ch "&" :: lit "nbsp;"). cbn [starts_with].
  rewrite (char_neq_eqb _ _ H). reflexivity.
Qed.

Lemma strip_spaces_nbsp s : strip_spaces (NBSP ++ s) = strip_spaces s.
Proof.
  change (NBSP ++ s) with (ch "&" :: lit "nbsp;" ++ s).
  rewrite strip_spaces_entity; [reflexivity |].
  apply (starts_with_app NBSP).
Qed.

(** The first character that [strip_spaces] keeps, when it is not "<" or
    "&", is the visible head of the string. *)
Lemma strip_spaces_head c r s :
  strip_spaces s = c :: r -> c <> ch "<" -> c <> ch "&" ->
  visible_head c s.
Proof.
  intros H Hlt Hamp. revert H.
  induction s as [|x s IH] using suffix_ind; intros H.
  - discriminate H.
  - destruct (starts_with NBSP (x :: s)) eqn:E.
    + rewrite (strip_spaces_entity _ _ E) in H.
      rewrite (starts_with_split _ _ E).
      apply vh_nbsp. apply (IH 5), H.
    + rewrite (strip_spaces_cons _ _ E) in H.
      destruct (is_space x) eqn:Ex.
      * apply vh_space; [exact Ex |]. apply (IH 0), H.
      * injection H as -> _. apply vh_here; assumption.
Qed.

Lemma visible_head_strip c s :
  visible_head c s -> exists r, strip_spaces s = c :: r.
Proof.
  induction 1 as [v Hc Hlt Hamp | x s Hx _ [r IH] | s _ [r IH]].
  - rewrite (strip_spaces_cons _ _ (not_amp_no_entity _ _ Hamp)), Hc.
    eexists. reflexivity.
  - rewrite strip_spaces_cons, Hx by (apply not_amp_no_entity; plain_char).
    exists r. exact IH.
  - rewrite strip_spaces_nbsp. exists r. exact IH.
Qed.

Lemma visible_head_first c s :
  visible_head c s -> exists x t, s = x :: t /\ x <> ch "<".
Proof.
  destruct 1 as [v Hc Hlt Hamp | x s Hx _ | s _].
  - exists c, v. auto.
  - exists x, s. split; [reflexivity | plain_char].
  - exists (ch "&"), (lit "nbsp;" ++ s). split; [reflexivity | plain_char].
Qed.

Lemma visible_head_not_blank c s : visible_head c s -> all_space s = false.
Proof.
  induction 1 as [v Hc Hlt Hamp | x s Hx _ IH | s _ IH].
  - unfold all_space. simpl. rewrite Hc. reflexivity.
  - unfold all_space in *. simpl. rewrite IH. apply andb_false_r.
  - reflexivity.
Qed.

(** *** Functions that copy everything up to the first "<" *)

Lemma visible_head_kept F c s :
  keeps_plain F -> visible_head c s -> visible_head c (F s).
Proof.
  intros HF. induction 1 as [v Hc Hlt Hamp | x s Hx _ IH | s _ IH].
  - rewrite HF by assumption. apply vh_here; assumption.
  - rewrite HF by plain_char. apply vh_space; assumption.
  - change (NBSP ++ s)
      with (ch "&" :: ch "n" :: ch "b" :: ch "s" :: ch "p" :: ch ";" :: s).
    rewrite !HF by plain_char.
    apply (vh_nbsp c (F s)), IH.
Qed.

Lemma keeps_plain_append t : keeps_plain (fun s => s ++ t).
Proof. intros x s _. reflexivity. Qed.

Lemma keeps_plain_split_br sep :
  keeps_plain (fun s => join sep (split_on re_br s)).
Proof.
  intros x s H.
  rewrite split_on_no_match, join_push_front; [reflexivity |].
  unfold re_br. change (lit "<br") with (ch "<" :: lit "br").
  cbn [starts_with]. rewrite (char_neq_eqb _ _ H). reflexivity.
Qed.

Lemma starts_with_lt pat x s :
  x <> ch "<" -> starts_with (ch "<" :: pat) (x :: s) = false.
Proof.
  intros H. cbn [starts_with]. rewrite (char_neq_eqb _ _ H). reflexivity.
Qed.

Lemma keeps_plain_replace_all pat rep :
  keeps_plain (replace_all (re_lit (ch "<" :: pat)) rep).
Proof.
  intros x s H. apply replace_all_no_match, re_lit_no_match.
  apply starts_with_lt, H.
Qed.

Lemma keeps_plain_replace_first pat rep :
  keeps_plain (replace_first (ch "<" :: pat) rep).
Proof.
  intros x s H. cbn [replace_first].
  rewrite (starts_with_lt pat x s H). reflexivity.
Qed.

(** The opening "<p>" of the wrapped text is not part of a match as long
    as the text does not begin with "<". *)
Lemma replace_all_front :
  keeps_front (replace_all (re_lit P_EMPTY) []).
Proof.
  intros x s H.
  change (lit "<p>" ++ x :: s) with (ch "<" :: ch "p" :: ch ">" :: x :: s).
  rewrite replace_all_no_match.
  - change P_EMPTY with (ch "<" :: lit "p></p>").
    rewrite !keeps_plain_replace_all by plain_char. reflexivity.
  - apply re_lit_no_match.
    change P_EMPTY with (ch "<" :: ch "p" :: ch ">" :: ch "<" :: lit "/p>").
    cbn [starts_with]. rewrite (char_neq_eqb _ _ H).
    rewrite !andb_false_r. reflexivity.
Qed.

Lemma replace_first_front pat rep :
  keeps_front (replace_first (lit "<p><" ++ pat) rep).
Proof.
  intros x s H.
  change (lit "<p>" ++ x :: s) with (ch "<" :: ch "p" :: ch ">" :: x :: s).
  change (lit "<p><" ++ pat)
    with (ch "<" :: ch "p" :: ch ">" :: ch "<" :: pat).
  cbn [replace_first].
  replace (starts_with (ch "<" :: ch "p" :: ch ">" :: ch "<" :: pat)
             (ch "<" :: ch "p" :: ch ">" :: x :: s)) with false.
  - change (ch "<" :: ch "p" :: ch ">" :: ch "<" :: pat)
      with (ch "<" :: (ch "p" :: ch ">" :: ch "<" :: pat)).
    rewrite (starts_with_lt _ (ch "p")) by plain_char.
    rewrite (starts_with_lt _ (ch ">")) by plain_char.
    reflexivity.
  - cbn [starts_with]. rewrite (char_neq_eqb _ _ H).
    rewrite !andb_false_r. reflexivity.
Qed.

Lemma replace_first_close_front rep :
  keeps_front (replace_first (lit "</p></p>") rep).
Proof. intros x s _. reflexivity. Qed.

Lemma visible_head_front F c t :
  keeps_front F -> keeps_plain F -> visible_head c t ->
  F (lit "<p>" ++ t) = lit "<p>" ++ F t /\ visible_head c (F t).
Proof.
  intros Hfront Hplain H. split.
  - destruct (visible_head_first _ _ H) as (x & t' & -> & Hx).
    apply Hfront, Hx.
  - apply visible_head_kept; assumption.
Qed.

(** The fallback output of a text with a visible head is "<p>" followed
    by a text with the same visible head. *)
Lemma collapse_wrap_visible c s :
  visible_head c s ->
  exists y, collapse (wrap_paragraphs s) = lit "<p>" ++ y
            /\ visible_head c y.
Proof.
  intros H. unfold collapse, wrap_paragraphs.
  apply (visible_head_kept _ c s (keeps_plain_split_br (lit "<br/></p><p>")))
    in H.
  apply (visible_head_kept _ c _ (keeps_plain_append (lit "</p>"))) in H.
  cbv beta in H.
  destruct (visible_head_front (replace_all (re_lit P_EMPTY) []) c _
              replace_all_front
              (keeps_plain_replace_all (lit "p></p>") []) H) as [-> H1].
  destruct (visible_head_front
              (replace_first (lit "<p><p>") (lit "<p>")) c _
              (replace_first_front (lit "p>") (lit "<p>"))
              (keeps_plain_replace_first (lit "p><p>") (lit "<p>")) H1)
    as [-> H2].
  destruct (visible_head_front
              (replace_first (lit "<p><p ") (lit "<p ")) c _
              (replace_first_front (lit "p ") (lit "<p "))
              (keeps_plain_replace_first (lit "p><p ") (lit "<p ")) H2)
    as [-> H3].
  destruct (visible_head_front
              (replace_first (lit "</p></p>") (lit "</p>")) c _
              (replace_first_close_front (lit "</p>"))
              (keeps_plain_replace_first (lit "/p></p>") (lit "</p>")) H3)
    as [-> H4].
  eexists. split; [reflexivity | exact H4].
Qed.

Lemma strip_spaces_paragraph y :
  strip_spaces (lit "<p>" ++ y) = lit "<p>" ++ strip_spaces y.
Proof.
  change (lit "<p>" ++ y) with (ch "<" :: ch "p" :: ch ">" :: y).
  rewrite !strip_spaces_cons by (apply not_amp_no_entity; plain_char).
  reflexivity.
Qed.

Lemma blank_after_strip_visible c r :
  c <> ch "<" -> blank_after_strip (lit "<p>" ++ c :: r) = false.
Proof.
  intros H. unfold blank_after_strip.
  change (lit "<p>" ++ c :: r) with (ch "<" :: ch "p" :: ch ">" :: c :: r).
  change P_EMPTY with (ch "<" :: ch "p" :: ch ">" :: ch "<" :: lit "/p>").
  change P_BR with (ch "<" :: ch "p" :: ch ">" :: ch "<" :: lit "br></p>").
  cbn [str_eqb existsb].
  assert (char_eqb c (ch "<") = false) as ->
    by (apply N.eqb_neq; exact H).
  reflexivity.
Qed.

Section Visible.

Variable element : Type.
Variable jq : js_value -> completion (list element).

(** C2, as the code has it: when what [isSet] keeps of the text, once
    "&nbsp;" and the space characters are stripped, begins with a
    character other than "<" and "&", the converted text is not
    empty. *)
Theorem textToHtml_visible_is_set s c r :
  probe_raises jq (JStr s) = true ->
  strip_spaces s = c :: r ->
  c <> ch "<" -> c <> ch "&" ->
  (x <- _textToHtml jq (JStr s) ;; isEmpty x) = Normal (JBool false).
Proof.
  intros Hprobe Hstrip Hlt Hamp.
  pose proof (strip_spaces_head c r s Hstrip Hlt Hamp) as Hvis.
  rewrite (textToHtml_fallback _ jq _ Hprobe). cbn [bind].
  unfold text_fallback. rewrite (visible_head_not_blank _ _ Hvis).
  destruct (collapse_wrap_visible c s Hvis) as (y & -> & Hy).
  destruct (visible_head_strip c y Hy) as (r' & Hr').
  rewrite isEmpty_string_unfold, strip_spaces_paragraph, Hr'.
  rewrite (blank_after_strip_visible c r' Hlt). reflexivity.
Qed.

End Visible.

Lemma textToHtml_visible_is_set_witness :
  (x <- _textToHtml jq_page (JStr (lit " &nbsp; Hello<br>World")) ;; isEmpty x)
  = Normal (JBool false).
Proof.
  apply (textToHtml_visible_is_set unit jq_page
           (lit " &nbsp; Hello<br>World") (ch "H") (lit "ello<br>World"));
    [reflexivity | vm_compute; reflexivity
     | vm_compute; discriminate | vm_compute; discriminate].
Defined.

(** C2 as the specification has it does not hold: the text "&nbsp;" has
    six characters, none of them a space, and its paragraph is empty for
    [isSet]; so is the paragraph of a text whose visible part begins with
    "<", and of one whose "&nbsp;" only appears once an empty paragraph
    is cut out. *)
Lemma textToHtml_nbsp_is_empty :
  (probe_raises jq_page (JStr (lit "&nbsp;")) = true
   /\ existsb non_space (lit "&nbsp;") = true
   /\ _textToHtml jq_page (JStr (lit "&nbsp;"))
      = Normal (JStr (lit "<p>&nbsp;</p>"))
   /\ (x <- _textToHtml jq_page (JStr (lit "&nbsp;")) ;; isEmpty x)
      = Normal (JBool true))
  /\ (probe_raises jq_page (JStr (lit "&nbsp;<p></p>")) = true
      /\ strip_spaces (lit "&nbsp;<p></p>") = lit "<p></p>"
      /\ (x <- _textToHtml jq_page (JStr (lit "&nbsp;<p></p>")) ;; isEmpty x)
         = Normal (JBool true))
  /\ (probe_raises jq_page (JStr (lit "&nb<p></p>sp;")) = true
      /\ strip_spaces (lit "&nb<p></p>sp;") = lit "&nb<p></p>sp;"
      /\ (x <- _textToHtml jq_page (JStr (lit "&nb<p></p>sp;")) ;; isEmpty x)
         = Normal (JBool true)).
Proof.
  repeat split; vm_compute; reflexivity.
Qed.

(** ** What [isSet] strips *)

(** [s.split(pat).join("")] cuts out the occurrences of [pat] met in one
    pass. *)
Lemma split_join_spec pat s :
  pat <> [] -> removed_all pat s (join [] (split_on (re_lit pat) s)).
Proof.
  intros Hne. induction s as [|c s IH] using suffix_ind.
  - rewrite split_on_nil. apply ra_none, occurs_nil, Hne.
  - destruct (starts_with pat (c :: s)) eqn:E.
    + destruct (re_lit_match pat (c :: s) Hne E) as (n & Hlen & Hm).
      rewrite (split_on_match _ _ _ _ Hm).
      replace (join [] ([] :: split_on (re_lit pat) (skipn n s)))
        with (join [] (split_on (re_lit pat) (skipn n s)))
        by (destruct (split_on (re_lit pat) (skipn n s)); reflexivity).
      rewrite (starts_with_split _ _ E) at 1.
      rewrite Hlen. cbn [skipn].
      apply (ra_cut pat [] (skipn n s)).
      * apply occurs_removelast, Hne.
      * apply IH.
    + rewrite (split_on_no_match _ _ _ (re_lit_no_match _ _ E)).
      rewrite join_push_front.
      specialize (IH 0). cbn [skipn] in IH.
      remember (join [] (split_on (re_lit pat) s)) as r eqn:Er. clear Er.
      destruct IH as [s Hocc | pre post post' Hocc Hrest].
      * apply ra_none.
        rewrite occurs_cons, E, Hocc. reflexivity.
      * apply (ra_cut pat (c :: pre) post post'); [| exact Hrest].
        apply (first_occurrence_cons pat c pre post); auto.
Qed.

(** [t.replace(/\s/g, "")] keeps the characters that are not spaces. *)
Lemma drop_spaces_filter t :
  replace_all re_space [] t = filter non_space t.
Proof.
  induction t as [|x t IH].
  - apply replace_all_nil.
  - rewrite drop_spaces_cons. simpl. unfold non_space at 1.
    destruct (is_space x); simpl; rewrite IH; reflexivity.
Qed.

(** *** One pass has one result *)

Lemma occurs_found pat pre post : occurs pat (pre ++ pat ++ post) = true.
Proof.
  induction pre as [|c pre IH].
  - simpl app. destruct (pat ++ post) eqn:E.
    + simpl. rewrite <- E, starts_with_app. reflexivity.
    + rewrite occurs_cons, <- E, starts_with_app. reflexivity.
  - simpl app. rewrite occurs_cons, IH. apply orb_true_r.
Qed.

Lemma starts_with_shorter pat a b :
  starts_with pat (a ++ b) = true -> length pat <= length a ->
  starts_with pat a = true.
Proof.
  revert a. induction pat as [|p pat IH]; intros a H Hlen; [reflexivity |].
  destruct a as [|c a]; simpl in Hlen; [lia |].
  simpl in *. apply andb_true_iff in H as [Hc Hs].
  rewrite Hc. apply (IH a Hs). lia.
Qed.

Lemma length_removelast_pat (pat : list N) :
  pat <> [] -> S (length (removelast pat)) = length pat.
Proof.
  intros Hne. rewrite (app_removelast_last 0%N Hne) at 2.
  rewrite length_app. simpl. lia.
Qed.

(** An occurrence at the very start comes before any later one. *)
Lemma first_occurrence_start pat post c pre' post' :
  pat <> [] ->
  pat ++ post = (c :: pre') ++ pat ++ post' ->
  occurs pat ((c :: pre') ++ removelast pat) = true.
Proof.
  intros Hne E.
  assert (starts_with pat (((c :: pre') ++ removelast pat)
                           ++ [last pat 0%N] ++ post') = true) as H.
  { replace (((c :: pre') ++ removelast pat) ++ [last pat 0%N] ++ post')
      with (pat ++ post); [apply starts_with_app |].
    rewrite E, <- (app_assoc (c :: pre')). f_equal.
    transitivity ((removelast pat ++ [last pat 0%N]) ++ post').
    - rewrite <- (app_removelast_last 0%N Hne). reflexivity.
    - rewrite <- app_assoc. reflexivity. }
  apply starts_with_shorter in H.
  - simpl app in *. rewrite occurs_cons, H. reflexivity.
  - pose proof (length_removelast_pat pat Hne) as L.
    rewrite length_app. simpl. lia.
Qed.

Lemma first_occurrence_unique pat pre post pre' post' :
  pat <> [] ->
  pre ++ pat ++ post = pre' ++ pat ++ post' ->
  occurs pat (pre ++ removelast pat) = false ->
  occurs pat (pre' ++ removelast pat) = false ->
  pre = pre' /\ post = post'.
Proof.
  intros Hne. revert pre'.
  induction pre as [|c pre IH]; intros [|c' pre'] E H H'.
  - simpl in E. apply app_inv_head in E. auto.
  - simpl app at 1 in E.
    rewrite (first_occurrence_start pat post c' pre' post' Hne E) in H'.
    discriminate.
  - simpl app at 2 in E. symmetry in E.
    rewrite (first_occurrence_start pat post' c pre post Hne E) in H.
    discriminate.
  - simpl in E. injection E as -> E.
    simpl app in H, H'. rewrite occurs_cons in H, H'.
    apply orb_false_iff in H as [_ H]. apply orb_false_iff in H' as [_ H'].
    destruct (IH pre' E H H') as [-> ->]. auto.
Qed.

Lemma removed_all_fun pat s t :
  pat <> [] -> removed_all pat s t ->
  forall t', removed_all pat s t' -> t = t'.
Proof.
  intros Hne H.
  induction H as [s Hocc | pre post post' Hocc Hrest IH]; intros t' H'.
  - remember s as s0 eqn:Es in H'.
    destruct H' as [s1 _ | pre1 post1 post1' _ _]; [symmetry; exact Es |].
    subst s. rewrite occurs_found in Hocc. discriminate.
  - remember (pre ++ pat ++ post) as s0 eqn:Es in H'.
    destruct H' as [s1 Hocc1 | pre1 post1 post1' Hocc1 Hrest1].
    + subst s1. rewrite occurs_found in Hocc1. discriminate.
    + symmetry in Es.
      destruct (first_occurrence_unique pat pre post pre1 post1 Hne Es
                  Hocc Hocc1) as [-> ->].
      f_equal. apply IH, Hrest1.
Qed.

Lemma strip_spaces_spec s :
  exists t, removed_all NBSP s t /\ strip_spaces s = filter non_space t.
Proof.
  exists (join [] (split_on (re_lit NBSP) s)). split.
  - apply split_join_spec. discriminate.
  - apply drop_spaces_filter.
Qed.

Lemma strip_spaces_unique s t :
  removed_all NBSP s t -> strip_spaces s = filter non_space t.
Proof.
  intros H. destruct (strip_spaces_spec s) as (t0 & H0 & E).
  rewrite E. f_equal.
  apply (removed_all_fun NBSP s t0); [discriminate | exact H0 | exact H].
Qed.

(** C8: [isSet] first cuts out the occurrences of "&nbsp;" met in one
    pass and then drops every space character; an HTML string is empty
    exactly when what remains is the empty string, "<p></p>",
    "<p><br></p>", or has no non-space character; with the four listed
    values, and values that hold spaces and several "&nbsp;". *)
Theorem isEmpty_after_strip :
  (forall s, exists t,
      removed_all NBSP s t /\ strip_spaces s = filter non_space t)
  /\ (forall s t,
         removed_all NBSP s t ->
         strip_spaces s = filter non_space t
         /\ isEmpty (JStr s)
            = Normal (JBool (blank_after_strip (filter non_space t)))
         /\ (isEmpty (JStr s) = Normal (JBool true) <->
             (filter non_space t = [] \/ filter non_space t = P_EMPTY
              \/ filter non_space t = P_BR)))
  /\ (forall s, isEmpty (JStr s)
                = Normal (JBool (blank_after_strip (strip_spaces s))))
  /\ (forall s, isEmpty (JStr s) = Normal (JBool true) <->
                (strip_spaces s = [] \/ strip_spaces s = P_EMPTY
                 \/ strip_spaces s = P_BR
                 \/ Forall (fun c => is_space c = true) (strip_spaces s)))
  /\ isEmpty (JStr (lit "<p></p>")) = Normal (JBool true)
  /\ isEmpty (JStr (lit "<p><br></p>")) = Normal (JBool true)
  /\ isEmpty (JStr (lit "<p>hi</p>")) = Normal (JBool false)
  /\ isEmpty (JStr (lit "&nbsp;")) = Normal (JBool true)
  /\ isEmpty (JStr (lit "<p> </p>")) = Normal (JBool true)
  /\ isEmpty (JStr (lit " <p> &nbsp;<br>&nbsp; &nbsp;</p> ")) = Normal (JBool true)
  /\ isEmpty (JStr (lit "&nbsp; &nbsp;&nbsp;")) = Normal (JBool true)
  /\ isEmpty (JStr (lit "<p>&nbsp;h i&nbsp;</p>")) = Normal (JBool false)
  /\ strip_spaces (lit "<p>&nbsp;h i&nbsp;</p>") = lit "<p>hi</p>".
Proof.
  assert (forall s, isEmpty (JStr s) = Normal (JBool true) <->
                    (strip_spaces s = [] \/ strip_spaces s = P_EMPTY
                     \/ strip_spaces s = P_BR
                     \/ Forall (fun c => is_space c = true) (strip_spaces s)))
    as Hiff.
  { intros s. rewrite isEmpty_string_unfold. unfold blank_after_strip.
    set (r := strip_spaces s).
    split.
    - intros H. injection H as H.
      repeat rewrite orb_true_iff in H. rewrite negb_true_iff in H.
      rewrite !str_eqb_eq, existsb_non_space_false in H. tauto.
    - intros H. do 2 f_equal.
      repeat rewrite orb_true_iff. rewrite negb_true_iff.
      rewrite !str_eqb_eq, existsb_non_space_false. tauto. }
  split; [exact strip_spaces_spec |].
  split.
  { intros s t Ht. pose proof (strip_spaces_unique s t Ht) as E.
    split; [exact E |]. split.
    - rewrite isEmpty_string_unfold, E. reflexivity.
    - rewrite Hiff, E. split; [| tauto].
      intros [H | [H | [H | H]]]; auto.
      left. destruct (filter non_space t) as [|c r] eqn:F; [reflexivity |].
      assert (In c (filter non_space t)) as Hin by (rewrite F; left; reflexivity).
      apply filter_In in Hin as [_ Hc].
      inversion H as [|c0 r0 Hsp _]. unfold non_space in Hc.
      rewrite Hsp in Hc. discriminate. }
  split; [exact isEmpty_string_unfold |].
  split; [exact Hiff |].
  repeat split; vm_compute; reflexivity.
Qed.

(** ** More on [isSet] and on the blank paragraph *)

Lemma drop_spaces_no_space t :
  Forall (fun c => is_space c = false) (replace_all re_space [] t).
Proof.
  induction t as [|x t IH].
  - rewrite replace_all_nil. constructor.
  - rewrite drop_spaces_cons. destruct (is_space x) eqn:E; auto.
Qed.

Lemma strip_spaces_no_space s :
  Forall (fun c => is_space c = false) (strip_spaces s).
Proof. apply drop_spaces_no_space. Qed.

Lemma no_space_has_visible r :
  r <> [] -> Forall (fun c => is_space c = false) r ->
  existsb non_space r = true.
Proof.
  intros Hne H. destruct H as [|c r Hc _]; [congruence |].
  simpl. unfold non_space. rewrite Hc. reflexivity.
Qed.

(** X1: what [isSet] tests has no space character left, so its last test,
    [value.match(/\S/)], never gives [null]: a string is empty exactly when
    the stripped value is "", "<p></p>" or "<p><br></p>". *)
Theorem isSet_last_test_never_fails :
  forall s,
    Forall (fun c => is_space c = false) (strip_spaces s)
    /\ isSet (JStr s) <> Normal JNull
    /\ (isEmpty (JStr s) = Normal (JBool true) <->
        (strip_spaces s = [] \/ strip_spaces s = P_EMPTY
         \/ strip_spaces s = P_BR)).
Proof.
  intros s. pose proof (strip_spaces_no_space s) as Hns.
  split; [exact Hns |]. split.
  - destruct s as [|c s]; [discriminate |].
    unfold isSet. cbn [js_and truthy bind string_method].
    destruct (strip_spaces (c :: s)) as [|d r] eqn:E; [discriminate |].
    cbn [js_and truthy strict_neq_str].
    destruct (str_eqb (d :: r) P_EMPTY); [discriminate |].
    cbn [negb truthy js_and].
    destruct (str_eqb (d :: r) P_BR); [discriminate |].
    cbn [negb truthy js_and string_method]. unfold match_non_space.
    destruct (find non_space (d :: r)) eqn:F; [discriminate |].
    apply find_non_space_none in F.
    rewrite no_space_has_visible in F; [discriminate F | discriminate | exact Hns].
  - rewrite isEmpty_string_unfold. unfold blank_after_strip.
    set (r := strip_spaces s) in *.
    split.
    + intros H. injection H as H.
      repeat rewrite orb_true_iff in H. rewrite negb_true_iff in H.
      rewrite !str_eqb_eq in H.
      destruct H as [[[H|H]|H]|H]; auto.
      destruct r as [|d r']; [auto |].
      rewrite no_space_has_visible in H; [discriminate H | discriminate | exact Hns].
    + intros H. do 2 f_equal.
      repeat rewrite orb_true_iff. rewrite !str_eqb_eq. tauto.
Qed.

Section BlankAndTotal.

Variable element : Type.
Variable jq : js_value -> completion (list element).

Lemma textToHtml_blank_value v :
  blank_value v = true ->
  probe_raises jq v = true ->
  _textToHtml jq v = Normal (JStr P_BLANK).
Proof.
  intros Hb Hp. destruct (probe_raises_true _ jq _ Hp) as [e He].
  unfold _textToHtml. rewrite He.
  destruct v as [| |b|n| |s|items|props]; simpl in Hb; try discriminate;
    try reflexivity.
  - rewrite negb_true_iff in Hb. subst b. reflexivity.
  - rewrite negb_true_iff in Hb. unfold js_or, truthy. rewrite Hb. reflexivity.
  - unfold js_or, truthy, string_method, text_fallback.
    destruct s as [|c s]; [reflexivity |]. rewrite Hb. reflexivity.
Qed.

(** X2: the blank paragraph that [_textToHtml] gives for a falsy value or
    for a string of spaces is "<p><br/></p>", which is not one of the two
    blank paragraphs of [isSet]: the converted value counts as set. *)
Theorem textToHtml_blank_is_set v :
  blank_value v = true ->
  probe_raises jq v = true ->
  (x <- _textToHtml jq v ;; isEmpty x) = Normal (JBool false)
  /\ (x <- _textToHtml jq v ;; isSet x) = Normal (JArr [[ch "<"]]).
Proof.
  intros Hb Hp. rewrite (textToHtml_blank_value v Hb Hp).
  split; vm_compute; reflexivity.
Qed.

Lemma textToHtml_field_value v :
  field_value v = true -> exists s, _textToHtml jq v = Normal (JStr s).
Proof.
  intros Hv. unfold _textToHtml.
  assert (exists s, js_or v (JStr []) = JStr s) as [s Hs].
  { unfold field_value in Hv. unfold js_or.
    destruct (truthy v) eqn:T.
    - destruct v; simpl in Hv; try discriminate. eauto.
    - eauto. }
  rewrite Hs. destruct (probe jq v); simpl; eauto.
Qed.

Lemma textToHtml_throws_type_error v e :
  _textToHtml jq v = Throw e -> e = TypeError.
Proof.
  unfold _textToHtml. destruct (probe jq v); [discriminate |].
  destruct (js_or v (JStr [])); simpl; congruence.
Qed.

(** X3: on a field value (a string or a falsy value) [_textToHtml] never
    throws and always answers with a string, whatever jQuery does; a
    truthy value that is not a string escapes the handler as a
    [TypeError] when the probe raises. *)
Theorem textToHtml_string_or_throw :
  (forall v, field_value v = true ->
             exists s, _textToHtml jq v = Normal (JStr s))
  /\ (forall v, truthy v = true -> is_string v = false ->
                probe_raises jq v = true ->
                _textToHtml jq v = Throw TypeError).
Proof.
  split; [exact textToHtml_field_value |].
  intros v Ht Hs Hp. destruct (probe_raises_true _ jq _ Hp) as [e He].
  unfold _textToHtml, js_or. rewrite He, Ht.
  destruct v; simpl in Hs; try discriminate; reflexivity.
Qed.

End BlankAndTotal.

Lemma textToHtml_blank_is_set_witness :
  ((x <- _textToHtml jq_page (JBool false) ;; isEmpty x) = Normal (JBool false)
   /\ (x <- _textToHtml jq_page (JBool false) ;; isSet x)
      = Normal (JArr [[ch "<"]]))
  /\ ((x <- _textToHtml jq_page (JStr (lit "  ")) ;; isEmpty x)
      = Normal (JBool false)
      /\ (x <- _textToHtml jq_page (JStr (lit "  ")) ;; isSet x)
         = Normal (JArr [[ch "<"]])).
Proof.
  split; apply textToHtml_blank_is_set; reflexivity.
Defined.

(** ** More on the toolbar items *)

Lemma filter_sep_free w :
  Forall (fun c => is_sep c = false) w ->
  filter (fun c => negb (is_sep c)) w = w.
Proof.
  induction 1 as [|c w Hc _ IH]; simpl; [reflexivity |].
  rewrite Hc, IH. reflexivity.
Qed.

Lemma items_of_concat s l :
  items_of s l -> concat l = filter (fun c => negb (is_sep c)) s.
Proof.
  induction 1 as [| c s l Hc _ IH | w s l Hne Hw Hb _ IH]; simpl.
  - reflexivity.
  - rewrite Hc. exact IH.
  - rewrite filter_app, (filter_sep_free _ Hw), IH. reflexivity.
Qed.

Lemma items_of_sep_free s l :
  items_of s l -> Forall (Forall (fun c => is_sep c = false)) l.
Proof.
  induction 1; auto.
Qed.

(** X4: the items read from a toolbar string hold no space and no comma,
    and put end to end they are the string without its spaces and commas:
    no other character is lost or added. *)
Theorem toolbar_items_keep_characters :
  forall s,
    Forall (Forall (fun c => is_sep c = false)) (toolbar_items s)
    /\ concat (toolbar_items s) = filter (fun c => negb (is_sep c)) s.
Proof.
  intros s. split.
  - apply (items_of_sep_free s), toolbar_items_spec.
  - apply items_of_concat, toolbar_items_spec.
Qed.

(** A run of characters without separators that stops at a boundary is
    cut in one way only. *)
Lemma word_split_unique w w' s s' :
  Forall (fun c => is_sep c = false) w ->
  Forall (fun c => is_sep c = false) w' ->
  boundary s -> boundary s' ->
  w ++ s = w' ++ s' -> w = w' /\ s = s'.
Proof.
  intros Hw. revert w'.
  induction Hw as [|x w Hx _ IH]; intros w' Hw' Hb Hb' E.
  - destruct Hw' as [|y w' Hy _]; [auto |].
    simpl in E. subst s. simpl in Hb. congruence.
  - destruct Hw' as [|y w' Hy Hw'].
    + simpl in E. subst s'. simpl in Hb'. congruence.
    + simpl in E. injection E as -> E.
      destruct (IH w' Hw' Hb Hb' E) as [-> ->]. auto.
Qed.

Lemma items_of_fun s l1 :
  items_of s l1 -> forall l2, items_of s l2 -> l1 = l2.
Proof.
  induction 1 as [| c s l Hc _ IH | w s l Hne Hw Hb _ IH]; intros l2 H2.
  - inversion H2 as [| c s l Hc E1 E2 | w s l Hne Hw Hb Hi E1 E2].
    + reflexivity.
    + destruct w; [congruence | discriminate].
  - inversion H2 as [| c' s' l' Hc' Hi E1 E2 | w s' l' Hne Hw Hb Hi E1 E2].
    + apply IH, Hi.
    + destruct w as [|x w]; [congruence |].
      simpl in E1. injection E1 as -> _.
      inversion Hw. congruence.
  - remember (w ++ s) as t eqn:Et.
    destruct H2 as [| c' s' l' Hc' Hi | w' s' l' Hne' Hw' Hb' Hi].
    + destruct w; [congruence | discriminate].
    + destruct w as [|x w]; [congruence |].
      simpl in Et. injection Et as -> _.
      inversion Hw. congruence.
    + destruct (word_split_unique w' w s' s Hw' Hw Hb' Hb Et) as [-> ->].
      f_equal. apply IH, Hi.
Qed.

Lemma is_item_spec w :
  is_item w = true -> w <> [] /\ Forall (fun c => is_sep c = false) w.
Proof.
  unfold is_item. intros H. apply andb_true_iff in H as [Hne Hall].
  split.
  - destruct w; [discriminate | discriminate].
  - rewrite forallb_forall in Hall. apply Forall_forall.
    intros c Hc. apply Hall in Hc. apply negb_true_iff, Hc.
Qed.

Lemma boundary_sep_app sep t :
  sep <> [] -> forallb is_sep sep = true -> boundary (sep ++ t).
Proof.
  destruct sep as [|c sep]; [congruence |]. simpl.
  intros _ H. apply andb_true_iff in H as [H _]. exact H.
Qed.

Lemma items_of_seps sep t l :
  forallb is_sep sep = true -> items_of t l -> items_of (sep ++ t) l.
Proof.
  induction sep as [|c sep IH]; simpl; intros H Hi; [exact Hi |].
  apply andb_true_iff in H as [Hc Hs]. apply items_sep; auto.
Qed.

Lemma items_of_join sep l :
  sep <> [] -> forallb is_sep sep = true ->
  forallb is_item l = true ->
  items_of (join sep l) l.
Proof.
  intros Hne Hsep. induction l as [|w l IH]; intros Hl.
  - constructor.
  - simpl in Hl. apply andb_true_iff in Hl as [Hw Hl].
    apply is_item_spec in Hw as [Hwne Hwfree].
    destruct l as [|w' l].
    + simpl. rewrite <- (app_nil_r w) at 1.
      apply items_word; auto; constructor.
    + change (join sep (w :: w' :: l)) with (w ++ sep ++ join sep (w' :: l)).
      apply items_word; auto.
      * apply boundary_sep_app; assumption.
      * apply items_of_seps; auto.
Qed.

(** A list of toolbar identifiers written with a separator made of spaces
    and commas between them is read back as the same list. *)
Lemma toolbar_items_join sep l :
  sep <> [] -> forallb is_sep sep = true ->
  forallb is_item l = true ->
  toolbar_items (join sep l) = l.
Proof.
  intros Hne Hsep Hl.
  apply (items_of_fun (join sep l)).
  - apply toolbar_items_spec.
  - apply items_of_join; assumption.
Qed.

Lemma join_items_truthy sep w l :
  is_item w = true -> truthy (JStr (join sep (w :: l))) = true.
Proof.
  intros H. apply is_item_spec in H as [Hne _].
  destruct w as [|c w]; [congruence |].
  destruct l; reflexivity.
Qed.

(** X5: a configuration whose toolbar entry lists identifiers separated by
    spaces and commas gives exactly these identifiers, without a warning;
    the default list is not mixed in. *)
Theorem getCKEditorToolbarItems_configured_list sep w l other :
  sep <> [] -> forallb is_sep sep = true ->
  forallb is_item (w :: l) = true ->
  _getCKEditorToolbarItems
    (Fulfilled (JObj (("toolbar"%string, JStr (join sep (w :: l))) :: other)))
  = ([], Normal (w :: l)).
Proof.
  intros Hne Hsep Hl.
  unfold _getCKEditorToolbarItems, try_toolbar, get_prop.
  cbn [lookup_prop String.eqb Ascii.eqb Bool.eqb bind].
  replace (String.eqb "toolbar" "toolbar") with true by reflexivity.
  rewrite join_items_truthy
    by (simpl in Hl; apply andb_true_iff in Hl as [H _]; exact H).
  cbn [string_method bind].
  rewrite (toolbar_items_join sep (w :: l) Hne Hsep Hl). reflexivity.
Qed.

Lemma getCKEditorToolbarItems_configured_list_witness :
  _getCKEditorToolbarItems
    (Fulfilled (JObj [("toolbar"%string,
                       JStr (join (lit " , ") [lit "undo"; lit "redo"]))]))
  = ([], Normal [lit "undo"; lit "redo"]).
Proof.
  apply (getCKEditorToolbarItems_configured_list
           (lit " , ") (lit "undo") [lit "redo"] []);
    [discriminate | reflexivity | reflexivity].
Defined.

(** ** Plain lines become paragraphs *)

Lemma plain_cons x s :
  plain (x :: s) = true -> x <> ch "<" /\ plain s = true.
Proof.
  unfold plain. simpl. intros H. apply andb_true_iff in H as [Hx Hs].
  split; [| exact Hs].
  apply negb_true_iff in Hx. intros ->. discriminate Hx.
Qed.

Lemma keeps_plain_app F u v :
  keeps_plain F -> plain u = true -> F (u ++ v) = u ++ F v.
Proof.
  intros HF. induction u as [|x u IH]; intros Hu; [reflexivity |].
  apply plain_cons in Hu as [Hx Hu].
  simpl. rewrite HF by exact Hx. rewrite IH by exact Hu. reflexivity.
Qed.

Lemma split_on_not_nil m s : split_on m s <> [].
Proof.
  destruct s as [|c s].
  - rewrite split_on_nil. discriminate.
  - rewrite split_on_equation.
    destruct (m (c :: s)) as [[|n]|]; try discriminate;
      destruct (split_on m s); discriminate.
Qed.

(** *** Splitting at the line-break markers *)

Lemma re_br_plain x s : x <> ch "<" -> re_br (x :: s) = None.
Proof.
  intros H. unfold re_br. change (lit "<br") with (ch "<" :: lit "br").
  cbn [starts_with]. rewrite (char_neq_eqb _ _ H). reflexivity.
Qed.

Lemma push_front_prepend x u l :
  push_front x (prepend u l) = prepend (x :: u) l.
Proof. destruct l; reflexivity. Qed.

Lemma split_br_plain_app u v :
  plain u = true ->
  split_on re_br (u ++ v) = prepend u (split_on re_br v).
Proof.
  induction u as [|x u IH]; intros Hu.
  - simpl. destruct (split_on re_br v) eqn:E; [| reflexivity].
    destruct (split_on_not_nil _ _ E).
  - apply plain_cons in Hu as [Hx Hu]. simpl.
    rewrite (split_on_no_match _ _ _ (re_br_plain x (u ++ v) Hx)).
    rewrite IH by exact Hu. apply push_front_prepend.
Qed.

Lemma split_br_plain s : plain s = true -> split_on re_br s = [s].
Proof.
  intros H. rewrite <- (app_nil_r s) at 1.
  rewrite (split_br_plain_app s [] H), split_on_nil. simpl.
  rewrite app_nil_r. reflexivity.
Qed.

Lemma split_br_marker t :
  split_on re_br (lit "<br>" ++ t) = [] :: split_on re_br t
  /\ split_on re_br (lit "<br/>" ++ t) = [] :: split_on re_br t.
Proof.
  split.
  - apply (split_on_match re_br (ch "<") (lit "br>" ++ t) 3). reflexivity.
  - apply (split_on_match re_br (ch "<") (lit "br/>" ++ t) 4). reflexivity.
Qed.

Lemma split_br_join mk l :
  mk = lit "<br>" \/ mk = lit "<br/>" ->
  l <> [] -> forallb plain l = true ->
  split_on re_br (join mk l) = l.
Proof.
  intros Hmk. induction l as [|s l IH]; intros Hne Hl; [congruence |].
  simpl in Hl. apply andb_true_iff in Hl as [Hs Hl].
  destruct l as [|s' l].
  - apply split_br_plain, Hs.
  - change (join mk (s :: s' :: l)) with (s ++ mk ++ join mk (s' :: l)).
    rewrite (split_br_plain_app s _ Hs).
    assert (split_on re_br (mk ++ join mk (s' :: l))
            = [] :: split_on re_br (join mk (s' :: l))) as ->.
    { destruct Hmk as [-> | ->]; apply split_br_marker. }
    rewrite IH by (discriminate || exact Hl).
    simpl. rewrite app_nil_r. reflexivity.
Qed.

(** X6: text written as segments without "<", with "<br>" between them, or
    with "<br/>" between them, is cut back into these segments. *)
Theorem split_br_join_segments l :
  l <> [] -> forallb plain l = true ->
  split_on re_br (join (lit "<br>") l) = l
  /\ split_on re_br (join (lit "<br/>") l) = l.
Proof.
  intros Hne Hl. split; apply split_br_join; auto.
Qed.

Lemma split_br_join_segments_witness :
  split_on re_br (join (lit "<br>") [lit "Hello"; lit ""; lit "World"])
  = [lit "Hello"; lit ""; lit "World"]
  /\ split_on re_br (join (lit "<br/>") [lit "Hello"; lit ""; lit "World"])
     = [lit "Hello"; lit ""; lit "World"].
Proof.
  apply split_br_join_segments; [discriminate | reflexivity].
Defined.

(** *** The empty paragraphs of the wrapped text *)

Ltac step_no_match :=
  rewrite replace_all_no_match by reflexivity.

Lemma cut_empty_break t :
  replace_all (re_lit P_EMPTY) [] (lit "<br/></p>" ++ t)
  = lit "<br/></p>" ++ replace_all (re_lit P_EMPTY) [] t.
Proof.
  change (lit "<br/></p>" ++ t)
    with (ch "<" :: ch "b" :: ch "r" :: ch "/" :: ch ">"
          :: ch "<" :: ch "/" :: ch "p" :: ch ">" :: t).
  do 9 step_no_match. reflexivity.
Qed.

Lemma cut_empty_open_break t :
  replace_all (re_lit P_EMPTY) [] (lit "<p>" ++ lit "<br/></p>" ++ t)
  = lit "<p>" ++ lit "<br/></p>" ++ replace_all (re_lit P_EMPTY) [] t.
Proof.
  change (lit "<p>" ++ lit "<br/></p>" ++ t)
    with (ch "<" :: ch "p" :: ch ">" :: lit "<br/></p>" ++ t).
  do 3 step_no_match. rewrite cut_empty_break. reflexivity.
Qed.

Lemma wrap_cons s s' l :
  lit "<p>" ++ join (lit "<br/></p><p>") (s :: s' :: l) ++ lit "</p>"
  = lit "<p>" ++ s ++ lit "<br/></p>"
    ++ (lit "<p>" ++ join (lit "<br/></p><p>") (s' :: l) ++ lit "</p>").
Proof.
  change (join (lit "<br/></p><p>") (s :: s' :: l))
    with (s ++ (lit "<br/></p>" ++ lit "<p>")
          ++ join (lit "<br/></p><p>") (s' :: l)).
  rewrite <- !app_assoc. reflexivity.
Qed.

Lemma cut_empty_wrap l :
  l <> [] -> forallb plain l = true ->
  replace_all (re_lit P_EMPTY) []
    (lit "<p>" ++ join (lit "<br/></p><p>") l ++ lit "</p>")
  = paragraphs l.
Proof.
  induction l as [|s l IH]; intros Hne Hl; [congruence |].
  simpl in Hl. apply andb_true_iff in Hl as [Hs Hl].
  destruct l as [|s' l].
  - destruct s as [|x s]; [vm_compute; reflexivity |].
    destruct (plain_cons _ _ Hs) as [Hx _].
    cbn [join paragraphs].
    change ((x :: s) ++ lit "</p>") with (x :: s ++ lit "</p>").
    rewrite (replace_all_front x _ Hx).
    change (x :: s ++ lit "</p>") with ((x :: s) ++ lit "</p>").
    change P_EMPTY with (ch "<" :: lit "p></p>").
    rewrite (keeps_plain_app _ (x :: s) _
               (keeps_plain_replace_all (lit "p></p>") []) Hs).
    replace (replace_all (re_lit (ch "<" :: lit "p></p>")) [] (lit "</p>"))
      with (lit "</p>") by (vm_compute; reflexivity).
    reflexivity.
  - rewrite wrap_cons.
    change (paragraphs (s :: s' :: l))
      with (lit "<p>" ++ s ++ lit "<br/></p>" ++ paragraphs (s' :: l)).
    rewrite <- IH by (discriminate || exact Hl).
    destruct s as [|x s].
    + apply cut_empty_open_break.
    + destruct (plain_cons _ _ Hs) as [Hx _].
      set (t := lit "<p>" ++ join (lit "<br/></p><p>") (s' :: l) ++ lit "</p>").
      change ((x :: s) ++ lit "<br/></p>" ++ t)
        with (x :: s ++ lit "<br/></p>" ++ t).
      rewrite (replace_all_front x _ Hx).
      change (x :: s ++ lit "<br/></p>" ++ t)
        with ((x :: s) ++ lit "<br/></p>" ++ t).
      change P_EMPTY with (ch "<" :: lit "p></p>").
      rewrite (keeps_plain_app _ (x :: s) _
                 (keeps_plain_replace_all (lit "p></p>") []) Hs).
      change (ch "<" :: lit "p></p>") with P_EMPTY.
      rewrite cut_empty_break. reflexivity.
Qed.

(** *** None of the four patterns in the paragraphs *)

Lemma occurs_no_match pat c s :
  starts_with pat (c :: s) = false -> occurs pat (c :: s) = occurs pat s.
Proof. intros H. rewrite occurs_cons, H. reflexivity. Qed.

Lemma occurs_plain_app pat u v :
  plain u = true ->
  occurs (ch "<" :: pat) (u ++ v) = occurs (ch "<" :: pat) v.
Proof.
  induction u as [|x u IH]; intros Hu; [reflexivity |].
  apply plain_cons in Hu as [Hx Hu]. simpl app.
  rewrite occurs_no_match by (apply starts_with_lt, Hx).
  apply IH, Hu.
Qed.

Ltac skip_char := rewrite occurs_no_match by reflexivity.

Lemma artifact_end p : artifact p -> occurs p (lit "</p>") = false.
Proof. intros [-> | [-> | [-> | ->]]]; vm_compute; reflexivity. Qed.

Lemma artifact_nil p : artifact p -> occurs p [] = false.
Proof. intros [-> | [-> | [-> | ->]]]; reflexivity. Qed.

Lemma artifact_close_open p t :
  artifact p ->
  occurs p (lit "</p>" ++ lit "<p>" ++ t) = occurs p (lit "<p>" ++ t).
Proof.
  change (lit "</p>" ++ lit "<p>" ++ t)
    with (ch "<" :: ch "/" :: ch "p" :: ch ">" :: lit "<p>" ++ t).
  intros [-> | [-> | [-> | ->]]]; do 4 skip_char; reflexivity.
Qed.

Lemma artifact_break p t :
  artifact p -> occurs p (lit "<br/>" ++ t) = occurs p t.
Proof.
  change (lit "<br/>" ++ t)
    with (ch "<" :: ch "b" :: ch "r" :: ch "/" :: ch ">" :: t).
  intros [-> | [-> | [-> | ->]]]; do 5 skip_char; reflexivity.
Qed.

Lemma artifact_open_break p t :
  artifact p -> occurs p (lit "<p>" ++ lit "<br/>" ++ t) = occurs p t.
Proof.
  change (lit "<p>" ++ lit "<br/>" ++ t)
    with (ch "<" :: ch "p" :: ch ">"
          :: ch "<" :: ch "b" :: ch "r" :: ch "/" :: ch ">" :: t).
  intros [-> | [-> | [-> | ->]]]; do 8 skip_char; reflexivity.
Qed.

Lemma artifact_open_plain p x s :
  artifact p -> x <> ch "<" ->
  occurs p (lit "<p>" ++ x :: s) = occurs p (x :: s).
Proof.
  intros Hp Hx.
  change (lit "<p>" ++ x :: s) with (ch "<" :: ch "p" :: ch ">" :: x :: s).
  assert (starts_with p (ch "<" :: ch "p" :: ch ">" :: x :: s) = false) as E.
  { destruct Hp as [-> | [-> | [-> | ->]]].
    - change (lit "<p></p>")
        with (ch "<" :: ch "p" :: ch ">" :: ch "<" :: lit "/p>").
      cbn [starts_with]. rewrite (char_neq_eqb _ _ Hx).
      rewrite !andb_false_r. reflexivity.
    - change (lit "<p><p>")
        with (ch "<" :: ch "p" :: ch ">" :: ch "<" :: lit "p>").
      cbn [starts_with]. rewrite (char_neq_eqb _ _ Hx).
      rewrite !andb_false_r. reflexivity.
    - change (lit "<p><p ")
        with (ch "<" :: ch "p" :: ch ">" :: ch "<" :: lit "p ").
      cbn [starts_with]. rewrite (char_neq_eqb _ _ Hx).
      rewrite !andb_false_r. reflexivity.
    - reflexivity. }
  rewrite (occurs_no_match _ _ _ E).
  destruct Hp as [-> | [-> | [-> | ->]]]; do 2 skip_char; reflexivity.
Qed.

Lemma artifact_lt p : artifact p -> exists pat, p = ch "<" :: pat.
Proof. intros [-> | [-> | [-> | ->]]]; eexists; reflexivity. Qed.

Lemma paragraphs_head l :
  paragraphs l = [] \/ exists t, paragraphs l = lit "<p>" ++ t.
Proof.
  destruct l as [|s [|s' l]]; [left; reflexivity | |].
  - destruct s; [left; reflexivity | right; eexists; reflexivity].
  - right. eexists. reflexivity.
Qed.

Lemma artifact_close_paragraphs p l :
  artifact p -> occurs p (paragraphs l) = false ->
  occurs p (lit "</p>" ++ paragraphs l) = false.
Proof.
  intros Hp H. destruct (paragraphs_head l) as [E | [t E]]; rewrite E in *.
  - rewrite app_nil_r. apply artifact_end, Hp.
  - rewrite artifact_close_open by exact Hp. exact H.
Qed.

Lemma paragraphs_clean p l :
  artifact p -> forallb plain l = true -> occurs p (paragraphs l) = false.
Proof.
  intros Hp. induction l as [|s l IH]; intros Hl.
  - apply artifact_nil, Hp.
  - simpl in Hl. apply andb_true_iff in Hl as [Hs Hl].
    specialize (IH Hl).
    destruct (artifact_lt p Hp) as [pat Epat].
    destruct l as [|s' l].
    + destruct s as [|x s]; [apply artifact_nil, Hp |].
      destruct (plain_cons _ _ Hs) as [Hx _].
      cbn [paragraphs].
      change ((x :: s) ++ lit "</p>") with (x :: s ++ lit "</p>").
      rewrite (artifact_open_plain p x _ Hp Hx).
      change (x :: s ++ lit "</p>") with ((x :: s) ++ lit "</p>").
      rewrite Epat, (occurs_plain_app pat _ _ Hs), <- Epat.
      apply artifact_end, Hp.
    + change (paragraphs (s :: s' :: l))
        with (lit "<p>" ++ s ++ lit "<br/>" ++ lit "</p>"
              ++ paragraphs (s' :: l)).
      destruct s as [|x s].
      * change (lit "<p>" ++ [] ++ lit "<br/>" ++ lit "</p>"
                ++ paragraphs (s' :: l))
          with (lit "<p>" ++ lit "<br/>" ++ lit "</p>"
                ++ paragraphs (s' :: l)).
        rewrite (artifact_open_break p _ Hp).
        apply artifact_close_paragraphs; assumption.
      * destruct (plain_cons _ _ Hs) as [Hx _].
        set (t := lit "<br/>" ++ lit "</p>" ++ paragraphs (s' :: l)).
        change ((x :: s) ++ t) with (x :: s ++ t).
        rewrite (artifact_open_plain p x _ Hp Hx).
        change (x :: s ++ t) with ((x :: s) ++ t).
        rewrite Epat, (occurs_plain_app pat _ _ Hs), <- Epat.
        unfold t. rewrite (artifact_break p _ Hp).
        apply artifact_close_paragraphs; assumption.
Qed.

Lemma replace_first_absent pat rep s :
  occurs pat s = false -> replace_first pat rep s = s.
Proof.
  induction s as [|c s IH]; intros H.
  - simpl in H. rewrite orb_false_r in H. simpl. rewrite H. reflexivity.
  - rewrite occurs_cons in H. apply orb_false_iff in H as [H1 H2].
    cbn [replace_first]. rewrite H1, (IH H2). reflexivity.
Qed.

Lemma collapse_wrap_plain text :
  forallb plain (split_on re_br text) = true ->
  collapse (wrap_paragraphs text) = paragraphs (split_on re_br text).
Proof.
  intros Hl. unfold collapse, wrap_paragraphs.
  rewrite (cut_empty_wrap _ (split_on_not_nil re_br text) Hl).
  rewrite (replace_first_absent (lit "<p><p>"))
    by (apply paragraphs_clean; unfold artifact; auto).
  rewrite (replace_first_absent (lit "<p><p "))
    by (apply paragraphs_clean; unfold artifact; auto).
  rewrite (replace_first_absent (lit "</p></p>"))
    by (apply paragraphs_clean; unfold artifact; auto).
  reflexivity.
Qed.

Section Paragraphs.

Variable element : Type.
Variable jq : js_value -> completion (list element).

(** X7: on the fallback path, a text whose segments between the line-break
    markers hold no "<" gives one paragraph for each segment, in order:
    every paragraph but the last ends with "<br/>", and an empty last
    segment (a text that ends with a marker) gives no paragraph. *)
Theorem textToHtml_plain_paragraphs text :
  probe_raises jq (JStr text) = true ->
  all_space text = false ->
  forallb plain (split_on re_br text) = true ->
  _textToHtml jq (JStr text)
  = Normal (JStr (paragraphs (split_on re_br text))).
Proof.
  intros Hp Hs Hl. rewrite (textToHtml_fallback _ jq _ Hp).
  unfold text_fallback. rewrite Hs, (collapse_wrap_plain text Hl).
  reflexivity.
Qed.

(** X8: on the fallback path, for a text whose segments between the
    line-break markers hold no "<", the result holds no empty paragraph
    and no doubled paragraph tag. *)
Theorem textToHtml_plain_artifact_free text :
  probe_raises jq (JStr text) = true ->
  all_space text = false ->
  forallb plain (split_on re_br text) = true ->
  exists o, _textToHtml jq (JStr text) = Normal (JStr o)
            /\ artifact_free o = true.
Proof.
  intros Hp Hs Hl. rewrite (textToHtml_fallback _ jq _ Hp).
  unfold text_fallback. rewrite Hs, (collapse_wrap_plain text Hl).
  eexists. split; [reflexivity |].
  unfold artifact_free.
  rewrite !paragraphs_clean by (assumption || (unfold artifact; auto)).
  reflexivity.
Qed.

(** X9: a text without any "<" that is not blank is wrapped, as it is, in
    one paragraph. *)
Theorem textToHtml_plain_text text :
  probe_raises jq (JStr text) = true ->
  all_space text = false ->
  plain text = true ->
  _textToHtml jq (JStr text)
  = Normal (JStr (lit "<p>" ++ text ++ lit "</p>")).
Proof.
  intros Hp Hs Hl. rewrite (textToHtml_fallback _ jq _ Hp).
  unfold text_fallback. rewrite Hs.
  rewrite collapse_wrap_plain; rewrite (split_br_plain text Hl).
  - destruct text as [|c text]; [discriminate Hs | reflexivity].
  - simpl. rewrite Hl. reflexivity.
Qed.

End Paragraphs.

Lemma textToHtml_plain_paragraphs_witness :
  _textToHtml jq_page (JStr (lit "one<br>two<br/><br>four<br>"))
  = Normal (JStr (paragraphs
                    (split_on re_br (lit "one<br>two<br/><br>four<br>")))).
Proof.
  apply textToHtml_plain_paragraphs; reflexivity.
Defined.

Lemma textToHtml_plain_artifact_free_witness :
  exists o,
    _textToHtml jq_page (JStr (lit "one<br>two<br/><br>four<br>"))
    = Normal (JStr o)
    /\ artifact_free o = true.
Proof.
  apply textToHtml_plain_artifact_free; reflexivity.
Defined.

Lemma textToHtml_plain_text_witness :
  _textToHtml jq_page (JStr (lit "a > b & c"))
  = Normal (JStr (lit "<p>" ++ lit "a > b & c" ++ lit "</p>")).
Proof.
  apply textToHtml_plain_text; reflexivity.
Defined.

(** The paragraphs of the witness, written out. *)
Example paragraphs_of_four_lines :
  paragraphs (split_on re_br (lit "one<br>two<br/><br>four<br>"))
  = lit "<p>one<br/></p><p>two<br/></p><p><br/></p><p>four<br/></p>".
Proof. vm_compute. reflexivity. Qed.

(** ** The language code and the localization script *)

Lemma hd_push_front c l :
  l <> [] -> hd [] (push_front c l) = c :: hd [] l.
Proof. destruct l; [congruence | reflexivity]. Qed.

Lemma language_code_before_underscore lang :
  CKEditorLanguageCode lang = before_underscore lang.
Proof.
  unfold CKEditorLanguageCode. induction lang as [|c lang IH].
  - rewrite split_on_nil. reflexivity.
  - cbn [before_underscore]. destruct (char_eqb c (ch "_")) eqn:E.
    + apply char_eqb_eq in E. subst c.
      rewrite (split_on_match _ _ _ 0); reflexivity.
    + rewrite split_on_no_match.
      * rewrite hd_push_front by apply split_on_not_nil.
        rewrite IH. reflexivity.
      * apply re_lit_no_match.
        change (lit "_") with [ch "_"]. cbn [starts_with].
        unfold char_eqb in *. rewrite N.eqb_sym, E. reflexivity.
Qed.

Lemma before_underscore_split s :
  exists rest,
    s = before_underscore s ++ rest
    /\ (rest = [] \/ exists r, rest = ch "_" :: r)
    /\ Forall (fun c => c <> ch "_") (before_underscore s).
Proof.
  induction s as [|c s (rest & E & Hrest & Hfree)].
  - exists []. repeat split; auto.
  - cbn [before_underscore]. destruct (char_eqb c (ch "_")) eqn:Ec.
    + apply char_eqb_eq in Ec. subst c.
      exists (ch "_" :: s). repeat split; eauto.
    + exists rest. repeat split; auto.
      * simpl. rewrite <- E. reflexivity.
      * constructor; [| exact Hfree].
        intros ->. discriminate Ec.
Qed.

(** X10: the language code is the locale up to its first "_": it holds no
    "_", and the locale is the code alone or the code, a "_" and the
    rest. *)
Theorem language_code_is_prefix lang :
  exists rest,
    lang = CKEditorLanguageCode lang ++ rest
    /\ (rest = [] \/ exists r, rest = ch "_" :: r)
    /\ Forall (fun c => c <> ch "_") (CKEditorLanguageCode lang).
Proof.
  rewrite language_code_before_underscore. apply before_underscore_split.
Qed.

Lemma language_code_english lang :
  CKEditorLanguageCode lang = lit "en"
  <-> (lang = lit "en" \/ starts_with (lit "en_") lang = true).
Proof.
  rewrite language_code_before_underscore. split.
  - intros H. destruct (before_underscore_split lang) as (rest & E & Hr & _).
    rewrite H in E. destruct Hr as [-> | [r ->]].
    + left. rewrite E. reflexivity.
    + right. rewrite E. reflexivity.
  - intros [-> | H]; [reflexivity |].
    rewrite (starts_with_split _ _ H). reflexivity.
Qed.

Section LanguageFacts.

Variable loadJS : jsstring -> completion unit.

(** X11: for the locale "en" and for every locale that begins with "en_",
    and for no other, the module asks for no script; for any other locale
    it asks once, for the translations file named after the language
    code; and a [loadJS] that throws gives a warning, never an
    exception. *)
Theorem language_script_of_locale lang :
  let code := CKEditorLanguageCode lang in
  (fst (loadCKEditorLanguageSource loadJS code) = []
   <-> (lang = lit "en" \/ starts_with (lit "en_") lang = true))
  /\ (code <> lit "en" ->
      exists warnings,
        fst (loadCKEditorLanguageSource loadJS code)
        = LoadJS (TRANSLATIONS ++ code ++ lit ".js") :: warnings
        /\ Forall (fun e => e = Warn "Unable to load CKEditor language: " code)
             warnings)
  /\ snd (loadCKEditorLanguageSource loadJS code) = Normal tt.
Proof.
  intros code. unfold loadCKEditorLanguageSource.
  destruct (str_eqb code (lit "en")) eqn:E.
  - apply str_eqb_eq in E. split; [| split].
    + split; [intros _; apply language_code_english, E | reflexivity].
    + congruence.
    + reflexivity.
  - assert (code <> lit "en") as Hne.
    { intros H. apply str_eqb_eq in H. congruence. }
    split; [| split].
    + split.
      * destruct (loadJS (languageURL code)); discriminate.
      * intros H. apply language_code_english in H. contradiction.
    + intros _. destruct (loadJS (languageURL code)); simpl; eauto.
    + destruct (loadJS (languageURL code)); reflexivity.
Qed.

End LanguageFacts.

Example language_code_fr : CKEditorLanguageCode (lit "fr_BE") = lit "fr".
Proof. vm_compute. reflexivity. Qed.

Example language_script_failing_load :
  loadCKEditorLanguageSource (fun _ => Throw RpcError)
    (CKEditorLanguageCode (lit "pt_BR"))
  = ([LoadJS (lit "/web_widget_ckeditor/static/lib/ckeditor/build/translations/pt.js");
      Warn "Unable to load CKEditor language: " (lit "pt")],
     Normal tt).
Proof. vm_compute. reflexivity. Qed.

(** ** The widget after [destroy], and [reset] *)

Section PageFacts.

Variable editor : Type.
Variable base : Type.
Variable element : Type.
Variable jq : js_value -> completion (list element).
Variable super_destroy : base -> base.

Lemma destroy_field_no_editor (this : field editor base) :
  ckeditor (core (destroy_field super_destroy this)) = None.
Proof.
  destruct this as [[[instance|] rel fw] m v t c]; reflexivity.
Qed.

(** X12: on a destroyed widget no method of the editor is called any more:
    [activate] focuses nothing and answers [undefined], [_getValue] reads
    the textarea (or raises when there is none), and a [reset] in edit
    mode that does not come from the widget itself raises a
    [TypeError]. *)
Theorem destroyed_widget_has_no_editor (this : field editor base) :
  let gone := destroy_field super_destroy this in
  activate gone = ([], JUndefined)
  /\ _getValue gone
     = (if has_target this then Normal [TargetVal] else Throw TypeError)
  /\ (forall new_value event,
         mode this = Edit -> event <> Some Self ->
         snd (reset jq gone new_value event) = Throw TypeError).
Proof.
  intros gone. pose proof (destroy_field_no_editor this) as Hno.
  fold gone in Hno. split; [| split].
  - unfold activate. rewrite Hno. reflexivity.
  - unfold _getValue. rewrite Hno.
    destruct (mode gone); reflexivity.
  - intros new_value event Hmode Hevent.
    unfold reset. cbn [snd value mode core].
    change (core gone) with (destroy super_destroy (core this)) in *.
    change (mode gone) with (mode this). rewrite Hmode.
    change (ckeditor (core gone)) with
      (ckeditor (destroy super_destroy (core this))) in Hno.
    rewrite Hno.
    destruct (_textToHtml jq new_value) as [markup | e] eqn:E.
    + destruct event as [[|]|]; [congruence | reflexivity | reflexivity].
    + rewrite (textToHtml_throws_type_error _ jq _ _ E). reflexivity.
Qed.

(** X13: when the widget itself is the origin of the change, [reset] stores
    the new value and calls neither the editor nor the read-only node,
    whatever the mode, even when there is no editor. *)
Theorem reset_from_self_renders_nothing (this : field editor base) v :
  field_value v = true ->
  value (fst (reset jq this v (Some Self))) = v
  /\ snd (reset jq this v (Some Self)) = Normal [].
Proof.
  intros Hv. split; [reflexivity |].
  unfold reset. cbn [snd value].
  destruct (textToHtml_field_value _ jq v Hv) as [s ->]. reflexivity.
Qed.

(** X14: once [_renderReadonly] has shown a field value, a [reset] in
    read-only mode that comes from elsewhere fills the node again, with
    the converted new value, and does not raise. *)
Theorem readonly_reset_shows_converted_value (this : field editor base) v
    event :
  field_value (value this) = true ->
  field_value v = true ->
  mode this = Readonly ->
  event <> Some Self ->
  exists shown shown',
    _textToHtml jq (value this) = Normal (JStr shown)
    /\ snd (_renderReadonly jq this) = Normal [ContentHtml (JStr shown)]
    /\ _textToHtml jq v = Normal (JStr shown')
    /\ snd (reset jq (fst (_renderReadonly jq this)) v event)
       = Normal [ContentHtml (JStr shown')].
Proof.
  intros H0 Hv Hmode Hevent.
  destruct (textToHtml_field_value _ jq _ H0) as [shown E0].
  destruct (textToHtml_field_value _ jq _ Hv) as [shown' Ev].
  exists shown, shown'.
  unfold _renderReadonly. rewrite E0. cbn [fst snd].
  repeat split; auto.
  unfold reset. cbn [snd value mode has_content core]. rewrite Ev, Hmode.
  destruct event as [[|]|]; [congruence | reflexivity | reflexivity].
Qed.

End PageFacts.

Lemma reset_from_self_renders_nothing_witness :
  value (fst (reset jq_page
                (Field (Widget (@None nat) [] tt) Edit (JBool false)
                   false false)
                (JStr (lit "Hello")) (Some Self)))
  = JStr (lit "Hello")
  /\ snd (reset jq_page
            (Field (Widget (@None nat) [] tt) Edit (JBool false)
               false false)
            (JStr (lit "Hello")) (Some Self))
     = Normal [].
Proof.
  apply reset_from_self_renders_nothing. reflexivity.
Defined.

Lemma readonly_reset_shows_converted_value_witness :
  exists shown shown',
    _textToHtml jq_page (JBool false) = Normal (JStr shown)
    /\ snd (_renderReadonly jq_page
              (Field (Widget (@None nat) [] tt) Readonly (JBool false)
                 false false))
       = Normal [ContentHtml (JStr shown)]
    /\ _textToHtml jq_page (JStr (lit "a<br>b")) = Normal (JStr shown')
    /\ snd (reset jq_page
              (fst (_renderReadonly jq_page
                      (Field (Widget (@None nat) [] tt) Readonly
                         (JBool false) false false)))
              (JStr (lit "a<br>b")) None)
       = Normal [ContentHtml (JStr shown')].
Proof.
  apply (readonly_reset_shows_converted_value nat unit unit jq_page
           (Field (Widget (@None nat) [] tt) Readonly (JBool false)
              false false)
           (JStr (lit "a<br>b")) None);
    [reflexivity | reflexivity | reflexivity | discriminate].
Defined.
